(** * rename.py: timestamp photo renaming with de-duplication

    A shallow embedding of [src/rename.py] and the properties of its
    scan / group / plan / execute pipeline.

    File names are strings over the code points below 256 (Rocq's [ascii]);
    on that range Python's [\d] is exactly [0-9], and the Unicode lower-case
    mapping used by [re.IGNORECASE] and by [str.lower] is the Latin-1 one.
    [list.sort] on [str] orders by code point, which is [String.compare]. *)

From Stdlib Require Import String Ascii NArith List Sorted Permutation Lia.
From Stdlib Require Import DecimalString DecimalNat DecimalFacts OrderedTypeEx.
From stdpp Require Import base option list sorting gmap strings.

Local Open Scope string_scope.
Local Open Scope list_scope.

(** ** Characters *)

Module Chars.

(** [\d].  In a [str] pattern compiled without [re.ASCII] it matches every
    Unicode decimal digit (category Nd); below code point 256 these are
    [0-9], which is what this definition decides.  Names with characters
    beyond that range are outside this development. *)
Definition is_digit (c : ascii) : bool :=
  ((48 <=? N_of_ascii c) && (N_of_ascii c <=? 57))%N.

(** The character class [[\d\.]]. *)
Definition is_digit_or_dot (c : ascii) : bool :=
  is_digit c || Ascii.eqb c ".".

(** Unicode simple lower-casing on code points below 256: [A-Z], and the
    Latin-1 capitals U+00C0..U+00DE without the multiplication sign. *)
Definition tolower (c : ascii) : ascii :=
  let n := N_of_ascii c in
  if (((65 <=? n) && (n <=? 90))
      || ((192 <=? n) && (n <=? 222) && negb (n =? 215)))%N
  then ascii_of_N (n + 32) else c.

(** [str.lower()]. *)
Fixpoint lower (s : string) : string :=
  match s with
  | EmptyString => EmptyString
  | String c s' => String (tolower c) (lower s')
  end.

End Chars.

(** ** The pattern

    [PATTERN = re.compile(r'(\d{4})-(\d{2})-(\d{2})-(\d{2})-(\d{2})-(\d{2})_photo_[\d\.]+_MB(\.jpg)$', re.IGNORECASE)]

    [PATTERN.match] anchors at the start of the string.  The only repetition,
    [[\d\.]+], is followed by [_], which is outside its class, so the greedy
    match is the maximal run and no shorter run can succeed: the matcher is
    written as a deterministic scanner. *)

Module Pattern.
Import Chars.

(** The seven capture groups. *)
Record groups := Groups {
  year : string; month : string; day : string;
  hour : string; minute : string; second : string;
  extension : string
}.

(** [\d{n}]: exactly [n] digits; the matched text and the remaining input. *)
Fixpoint digits (n : nat) (s : string) : option (string * string) :=
  match n with
  | O => Some (EmptyString, s)
  | S n' =>
      match s with
      | String c s' =>
          if is_digit c then
            '(d, r) ← digits n' s'; Some (String c d, r)
          else None
      | EmptyString => None
      end
  end.

(** A literal under [re.IGNORECASE]: each input character is lower-cased
    and compared with the lower-cased pattern character.  Returns the text
    as it stands in the input, and the remaining input. *)
Fixpoint literal (lit s : string) : option (string * string) :=
  match lit with
  | EmptyString => Some (EmptyString, s)
  | String p lit' =>
      match s with
      | String c s' =>
          if Ascii.eqb (tolower c) (tolower p) then
            '(t, r) ← literal lit' s'; Some (String c t, r)
          else None
      | EmptyString => None
      end
  end.

(** The maximal run of characters of a class. *)
Fixpoint span (p : ascii -> bool) (s : string) : string * string :=
  match s with
  | String c s' =>
      if p c then let '(t, r) := span p s' in (String c t, r)
      else (EmptyString, s)
  | EmptyString => (EmptyString, EmptyString)
  end.

(** [[\d\.]+] *)
Definition size_field (s : string) : option (string * string) :=
  match span is_digit_or_dot s with
  | (EmptyString, _) => None
  | (t, r) => Some (t, r)
  end.

(** [$] without [re.MULTILINE]: the end of the string, or just before a
    newline that ends the string. *)
Definition at_end (s : string) : bool :=
  match s with
  | EmptyString => true
  | String c EmptyString => Ascii.eqb c "010"
  | _ => false
  end.

(** [PATTERN.match(s)]; [None] is Python's [None], [Some g] a match object
    with [g] its [groups()]. *)
Definition PATTERN_match (s : string) : option groups :=
  '(y, s) ← digits 4 s;
  '(_, s) ← literal "-" s;
  '(mo, s) ← digits 2 s;
  '(_, s) ← literal "-" s;
  '(d, s) ← digits 2 s;
  '(_, s) ← literal "-" s;
  '(h, s) ← digits 2 s;
  '(_, s) ← literal "-" s;
  '(mi, s) ← digits 2 s;
  '(_, s) ← literal "-" s;
  '(se, s) ← digits 2 s;
  '(_, s) ← literal "_photo_" s;
  '(_, s) ← size_field s;
  '(_, s) ← literal "_MB" s;
  '(ext, s) ← literal ".jpg" s;
  if at_end s then Some (Groups y mo d h mi se ext) else None.

End Pattern.

Import Chars Pattern.

(** ** Program values: exceptions, console lines, dictionaries *)

Inductive exn := AttributeError | IndexError | OSError.

Inductive result (A : Type) : Type :=
| Ok (a : A)
| Raise (e : exn).
Arguments Ok {A} a.
Arguments Raise {A} e.

Definition result_bind {A B} (r : result A) (k : A -> result B) : result B :=
  match r with
  | Ok a => k a
  | Raise e => Raise e
  end.

(** The lines the script prints, one constructor per [print] call. *)
Inductive line :=
| NoFilesFound
| FoundFiles (n : nat)
| WarnSecondMatch (original_name : string)
| CriticalNoExtension (original_name : string)
| Starting (dry_run : bool)
| Skipping (original : string)
| Conflict (new original : string)
| Renaming (original new : string)
| FailedRename (original new : string)
| Completed (dry_run : bool) (n : nat)
| LiveModeActivated.

(** A Python [dict] keyed by [str]: an association list in insertion order.
    Assigning to a present key replaces the value where it stands; assigning
    to an absent key appends. *)
Module Dict.
Section Dict.
Context {V : Type}.

Fixpoint get (k : string) (d : list (string * V)) : option V :=
  match d with
  | [] => None
  | (k', v) :: d' => if String.eqb k k' then Some v else get k d'
  end.

Fixpoint set (k : string) (v : V) (d : list (string * V)) : list (string * V) :=
  match d with
  | [] => [(k, v)]
  | (k', v') :: d' =>
      if String.eqb k k' then (k', v) :: d' else (k', v') :: set k v d'
  end.

Definition keys (d : list (string * V)) : list string := map fst d.
End Dict.

(** [d[k].append(v)] on a [defaultdict(list)]. *)
Fixpoint append (k v : string) (d : list (string * list string))
  : list (string * list string) :=
  match d with
  | [] => [(k, [v])]
  | (k', vs) :: d' =>
      if String.eqb k k' then (k', vs ++ [v]) :: d' else (k', vs) :: append k v d'
  end.
End Dict.

(** ** Planning: steps 1 to 3 of [rename_files_with_deduplication] *)

Module Planner.

(** [f"{year}{month}{day}_{hour}{minute}{second}_photo"] *)
Definition new_base_name (m : groups) : string :=
  year m +:+ month m +:+ day m +:+ "_" +:+
  hour m +:+ minute m +:+ second m +:+ "_photo".

(** [f"{i}"] for the counter of [enumerate]. *)
Definition str_of_nat (i : nat) : string :=
  NilZero.string_of_uint (Nat.to_uint i).

(** [matching_files = [f for f in files if PATTERN.match(f)]] *)
Definition matching_files (files : list string) : list string :=
  filter (λ f, is_Some (PATTERN_match f)) files.

(** The body of the loop of step 2. *)
Definition group_step (acc : list (string * list string) * list line)
    (original_name : string) : list (string * list string) * list line :=
  match PATTERN_match original_name with
  | Some m => (Dict.append (new_base_name m) original_name acc.1, acc.2)
  | None => (acc.1, acc.2 ++ [WarnSecondMatch original_name])
  end.

Definition timestamp_groups (matching : list string)
  : list (string * list string) * list line :=
  fold_left group_step matching ([], []).

(** The order of [str] values: lexicographic by code point. *)
Definition str_le (a b : string) : Prop := String.leb a b = true.

#[global] Instance str_le_dec : RelDecision str_le.
Proof. intros a b. unfold str_le. apply _. Defined.

(** [originals.sort()]: Python sorts by merging runs; the result is the
    ascending arrangement of the list. *)
Definition list_sort (l : list string) : list string :=
  merge_sort str_le l.

(** [enumerate(originals, i)] *)
Fixpoint enumerate (i : nat) (l : list string) : list (nat * string) :=
  match l with
  | [] => []
  | x :: l' => (i, x) :: enumerate (S i) l'
  end.

(** The body of the inner loop of step 3 (several files in one second). *)
Definition numbered_step (new_base_name : string)
    (acc : list (string * string) * list line) (ix : nat * string)
  : list (string * string) * list line :=
  match PATTERN_match ix.2 with
  | Some m =>
      (Dict.set ix.2
         (new_base_name +:+ "_" +:+ str_of_nat ix.1 +:+ extension m) acc.1,
       acc.2)
  | None => (acc.1, acc.2 ++ [CriticalNoExtension ix.2])
  end.

(** The body of the outer loop of step 3.  [PATTERN.match(...).group(7)] on
    a failed match raises [AttributeError]; [originals[0]] on an empty list
    raises [IndexError]. *)
Definition plan_step (acc : list (string * string) * list line)
    (group : string * list string)
  : result (list (string * string) * list line) :=
  let new_base_name := group.1 in
  let originals := list_sort group.2 in
  if Nat.eqb (length originals) 1 then
    match originals with
    | original_name :: _ =>
        match PATTERN_match original_name with
        | Some m =>
            Ok (Dict.set original_name (new_base_name +:+ extension m) acc.1,
                acc.2)
        | None => Raise AttributeError
        end
    | [] => Raise IndexError
    end
  else
    Ok (fold_left (numbered_step new_base_name) (enumerate 1 originals) acc).

Fixpoint plan_loop (groups : list (string * list string))
    (acc : list (string * string) * list line)
  : result (list (string * string) * list line) :=
  match groups with
  | [] => Ok acc
  | g :: groups' => result_bind (plan_step acc g) (plan_loop groups')
  end.

(** Steps 2 and 3 on the matching files: the rename plan and the lines
    printed on the way. *)
Definition rename_plan (matching : list string)
  : result (list (string * string) * list line) :=
  let '(groups, out) := timestamp_groups matching in
  plan_loop groups ([], out).

End Planner.

Import Planner.

(** ** The working directory

    The directory is a finite map from entry names to entries; names are
    compared exactly, as on a case-sensitive file system.  The payload
    [data] is the identity of the file behind a name: replacing one entry by
    another under the same name is observable, and two names that hold the
    same entry are hard links to one file.

    [os.path.exists] follows symbolic links and "returns False for broken
    symbolic links" (Python library reference).  It follows the link anew at
    every call, so its answer for a link can change while the run renames
    entries.  Where a link leads is a matter of the whole file system:
    [follows d target] says whether the path [target] leads to something
    when the directory is [d]; it is a parameter, like [denied] below.  The
    entries of the directory themselves can always be examined: a regular
    file or a directory is seen by [os.path.exists] whenever it is there.

    [os.rename] is POSIX [rename(2)]: an existing destination that is not a
    directory is replaced silently, a link being replaced itself rather than
    followed; when source and destination are hard links to one file it
    succeeds and does nothing. *)

Module Fs.

Inductive entry :=
| File (data : N)
| Dir (data : N) (empty : bool)
| Symlink (data : N) (target : string).

#[global] Instance entry_eq_dec : EqDecision entry.
Proof. solve_decision. Defined.

(** [os.path.exists(p)] *)
Definition path_exists (follows : gmap string entry -> string -> bool)
    (d : gmap string entry) (p : string) : bool :=
  match d !! p with
  | Some (Symlink _ target) => follows d target
  | Some _ => true
  | None => false
  end.

(** [os.listdir('.')] returns every entry name once, in an order the
    platform chooses: [files] is a listing of [d]. *)
Definition is_listing (d : gmap string entry) (files : list string) : Prop :=
  NoDup files ∧ list_to_set files = dom d.

Section Rename.
(** The calls the platform refuses (permissions, read-only media, ...). *)
Variable denied : string -> string -> bool.

(** [os.rename(src, dst)]; [Raise OSError] leaves the directory as it
    was. *)
Definition os_rename (src dst : string) (d : gmap string entry)
  : result (gmap string entry) :=
  if denied src dst then Raise OSError else
  match d !! src with
  | None => Raise OSError
  | Some e =>
      if String.eqb src dst then Ok d else
      match d !! dst with
      | None => Ok (<[dst := e]> (delete src d))
      | Some t =>
          if bool_decide (e = t) then Ok d else
          match e, t with
          | Dir _ _, Dir _ true => Ok (<[dst := e]> (delete src d))
          | Dir _ _, _ => Raise OSError
          | _, Dir _ _ => Raise OSError
          | _, _ => Ok (<[dst := e]> (delete src d))
          end
      end
  end.
End Rename.

End Fs.

Import Fs.

(** ** Execution: step 4 and the entry point *)

(** What a run can change: the directory and the console.  [calls] records
    every [os.rename] call with whether it succeeded; it is not program
    state, only the trace the properties below speak about. *)
Record world := World {
  dir : gmap string entry;
  stdout : list line;
  calls : list (string * string * bool)
}.

Definition print (l : line) (w : world) : world :=
  World (dir w) (stdout w ++ [l]) (calls w).

Definition print_all (ls : list line) (w : world) : world :=
  World (dir w) (stdout w ++ ls) (calls w).

Module Executor.
Section Run.
Variable follows : gmap string entry -> string -> bool.
Variable denied : string -> string -> bool.

(** The body of the loop of step 4.  [except OSError] catches [OSError]
    and nothing else. *)
Definition execute_step (dry_run : bool) (w : world)
    (p : string * string) : result world :=
  let '(original, new) := p in
  if String.eqb original new then Ok (print (Skipping original) w)
  else if path_exists follows (dir w) new && negb (String.eqb new original) then
    Ok (print (Conflict new original) w)
  else
    let w := print (Renaming original new) w in
    if dry_run then Ok w
    else
      match os_rename denied original new (dir w) with
      | Ok d' =>
          Ok (World d' (stdout w) (calls w ++ [(original, new, true)]))
      | Raise OSError =>
          Ok (print (FailedRename original new)
                (World (dir w) (stdout w)
                   (calls w ++ [(original, new, false)])))
      | Raise e => Raise e
      end.

Fixpoint execute (dry_run : bool) (plan : list (string * string))
    (w : world) : result world :=
  match plan with
  | [] => Ok w
  | p :: plan' =>
      result_bind (execute_step dry_run w p) (execute dry_run plan')
  end.

(** [rename_files_with_deduplication(dry_run)], with [files] the value of
    [os.listdir('.')]. *)
Definition rename_files_with_deduplication (dry_run : bool)
    (files : list string) (w : world) : result world :=
  let matching := matching_files files in
  match matching with
  | [] => Ok (print NoFilesFound w)
  | _ :: _ =>
      let w := print (FoundFiles (length matching)) w in
      result_bind (rename_plan matching) (λ po,
        let w := print (Starting dry_run) (print_all po.2 w) in
        result_bind (execute dry_run po.1 w) (λ w,
          Ok (print (Completed dry_run (length po.1)) w)))
  end.

(** The flag computed under [if __name__ == "__main__"] from [sys.argv]. *)
Definition is_dry_run (argv : list string) : bool :=
  match argv with
  | _ :: arg :: _ => negb (String.eqb (lower arg) "execute")
  | _ => true
  end.

Definition main (argv files : list string) (w : world) : result world :=
  let w := if is_dry_run argv then w else print LiveModeActivated w in
  rename_files_with_deduplication (is_dry_run argv) files w.
End Run.
End Executor.

Import Executor.

(** * Vocabulary of the properties *)

(** ** Shapes of strings *)

Fixpoint string_forall (p : ascii -> bool) (s : string) : bool :=
  match s with
  | EmptyString => true
  | String c s' => p c && string_forall p s'
  end.

(** Exactly [n] digits. *)
Definition is_digits (n : nat) (s : string) : Prop :=
  String.length s = n ∧ string_forall is_digit s = true.

(** The text after the run does not start with a character of the class. *)
Definition stops (p : ascii -> bool) (r : string) : Prop :=
  match r with
  | EmptyString => True
  | String c _ => p c = false
  end.

(** The strings [PATTERN] accepts, with the groups it captures: the shape
    of the regular expression, every literal read case-insensitively. *)
Definition pattern_shape (s : string) (g : groups) : Prop :=
  ∃ photo size mb nl,
    s = year g +:+ "-" +:+ month g +:+ "-" +:+ day g +:+ "-" +:+
        hour g +:+ "-" +:+ minute g +:+ "-" +:+ second g +:+
        photo +:+ size +:+ mb +:+ extension g +:+ nl
    ∧ is_digits 4 (year g) ∧ is_digits 2 (month g) ∧ is_digits 2 (day g)
    ∧ is_digits 2 (hour g) ∧ is_digits 2 (minute g) ∧ is_digits 2 (second g)
    ∧ lower photo = "_photo_"
    ∧ size ≠ "" ∧ string_forall is_digit_or_dot size = true
    ∧ lower mb = "_mb"
    ∧ lower (extension g) = ".jpg"
    ∧ (nl = "" ∨ nl = String "010" "").

(** The base key read off the nineteen characters [YYYY-MM-DD-HH-MM-SS]. *)
Definition stamp_key (stamp : string) : string :=
  substring 0 4 stamp +:+ substring 5 2 stamp +:+ substring 8 2 stamp +:+ "_" +:+
  substring 11 2 stamp +:+ substring 14 2 stamp +:+ substring 17 2 stamp +:+
  "_photo".

(** ** The template of the specification

    Section 4.1 of the specification words the pattern as
    [YYYY-MM-DD-HH-MM-SS_photo_<decimal-with-optional-fraction>_MB.jpg] with
    a case-insensitive extension.  [conforms_template] reads those words
    literally: the fixed parts as they are spelled, a decimal number with an
    optional fraction, the extension in any case, and nothing after it. *)

Module SpecTemplate.

(** A literal, spelled exactly. *)
Fixpoint exact (lit s : string) : option string :=
  match lit with
  | EmptyString => Some s
  | String p lit' =>
      match s with
      | String c s' => if Ascii.eqb c p then exact lit' s' else None
      | EmptyString => None
      end
  end.

(** Digits, then optionally a dot and digits. *)
Definition decimal (s : string) : option string :=
  match span is_digit s with
  | (EmptyString, _) => None
  | (_, String c r) =>
      if Ascii.eqb c "." then
        match span is_digit r with
        | (EmptyString, _) => None
        | (_, r') => Some r'
        end
      else Some (String c r)
  | (_, EmptyString) => Some EmptyString
  end.

Definition conforms_template (s : string) : bool :=
  match
    '(_, s) ← digits 4 s; s ← exact "-" s;
    '(_, s) ← digits 2 s; s ← exact "-" s;
    '(_, s) ← digits 2 s; s ← exact "-" s;
    '(_, s) ← digits 2 s; s ← exact "-" s;
    '(_, s) ← digits 2 s; s ← exact "-" s;
    '(_, s) ← digits 2 s; s ← exact "_photo_" s;
    s ← decimal s; s ← exact "_MB" s;
    '(_, s) ← literal ".jpg" s; Some s
  with
  | Some EmptyString => true
  | _ => false
  end.

End SpecTemplate.

Import SpecTemplate.

(** ** The plan as a function of the matching files *)

(** Assigning a list of pairs in turn, [d[k] = v] for each. *)
Definition assign_all {V : Type} (ps d : list (string * V))
  : list (string * V) :=
  fold_left (λ d kv, Dict.set kv.1 kv.2 d) ps d.

(** The base key a file is grouped under, and the extension it keeps. *)
Definition key_of (f : string) : option string :=
  new_base_name <$> PATTERN_match f.

Definition ext_of (f : string) : string :=
  default "" (extension <$> PATTERN_match f).

Definition all_match (l : list string) : Prop :=
  Forall (λ f, is_Some (PATTERN_match f)) l.

(** Step 2 without the console. *)
Definition group_pure g f : list (string * list string) :=
  match PATTERN_match f with
  | Some m => Dict.append (new_base_name m) f g
  | None => g
  end.

Definition groups_of (l : list string) : list (string * list string) :=
  fold_left group_pure l [].

Definition same_key (k : string) (l : list string) : list string :=
  filter (λ f, key_of f = Some k) l.

Definition merge_group (o : option (list string)) (vs : list string)
  : option (list string) :=
  match vs with
  | [] => o
  | _ => Some (default [] o ++ vs)
  end.

(** What one group contributes to the plan: the pairs it assigns, in order. *)
Definition numbered_name (new_base_name : string) (ix : nat * string) : string :=
  new_base_name +:+ "_" +:+ str_of_nat ix.1 +:+ ext_of ix.2.

Definition group_pairs (group : string * list string) : list (string * string) :=
  let originals := list_sort group.2 in
  if Nat.eqb (length originals) 1 then
    (λ o, (o, group.1 +:+ ext_of o)) <$> originals
  else
    (λ ix, (ix.2, numbered_name group.1 ix)) <$> enumerate 1 originals.

Definition plan_of (matching : list string) : list (string * string) :=
  assign_all (mjoin (group_pairs <$> groups_of matching)) [].

(** The new name of the file at position [j] of a sorted group. *)
Definition new_name_at (k : string) (sorted : list string) (j : nat)
    (o : string) : string :=
  if Nat.eqb (length sorted) 1 then k +:+ ext_of o
  else numbered_name k (S j, o).

(** ** The loop of step 4 as a relation *)

Section Steps.
Variable follows : gmap string entry -> string -> bool.
Variable denied : string -> string -> bool.

(** One turn of the loop of step 4, as a relation between worlds. *)
Inductive step (dry_run : bool) (w : world) (o n : string) : world → Prop :=
| step_skip :
  o = n → step dry_run w o n (print (Skipping o) w)
| step_conflict :
  o ≠ n → path_exists follows (dir w) n = true →
  step dry_run w o n (print (Conflict n o) w)
| step_preview :
  o ≠ n → path_exists follows (dir w) n = false → dry_run = true →
  step dry_run w o n (print (Renaming o n) w)
| step_renamed d' :
  o ≠ n → path_exists follows (dir w) n = false → dry_run = false →
  os_rename denied o n (dir w) = Ok d' →
  step dry_run w o n
    (World d' (stdout w ++ [Renaming o n]) (calls w ++ [(o, n, true)]))
| step_failed :
  o ≠ n → path_exists follows (dir w) n = false → dry_run = false →
  os_rename denied o n (dir w) = Raise OSError →
  step dry_run w o n
    (World (dir w) (stdout w ++ [Renaming o n; FailedRename o n])
       (calls w ++ [(o, n, false)])).

(** Running the whole plan, as the closure of [step]. *)
Inductive steps (dry_run : bool) : world → list (string * string) → world → Prop :=
| steps_nil w : steps dry_run w [] w
| steps_cons w o n w1 plan w' :
  step dry_run w o n w1 → steps dry_run w1 plan w' →
  steps dry_run w ((o, n) :: plan) w'.

End Steps.


(** A line that reports neither a conflict nor a failure. *)
Definition clean (l : line) : Prop :=
  match l with
  | Conflict _ _ | FailedRename _ _ => False
  | _ => True
  end.

(** ** What a run does with a pair, read off the directory *)

Section Attempt.
Variable follows : gmap string entry -> string -> bool.
Variable denied : string -> string -> bool.

(** What the loop of step 4 does with a pair in apply mode, in a directory
    [d]: [None] when [os.path.exists] sees the target and the pair is
    skipped as a conflict; [Some true] when [os.rename] is called and
    succeeds; [Some false] when it is called and raises. *)
Definition attempt (d : gmap string entry) (p : string * string) : option bool :=
  if path_exists follows d p.2 then None
  else Some (match os_rename denied p.1 p.2 d with
             | Ok _ => true
             | Raise _ => false
             end).

(** The [os.rename] call made for a pair, if any, with its outcome. *)
Definition call_of (d : gmap string entry) (p : string * string)
  : option (string * string * bool) :=
  (λ b, (p.1, p.2, b)) <$> attempt d p.

(** The lines an apply run prints for a pair. *)
Definition apply_report (d : gmap string entry) (p : string * string)
  : list line :=
  match attempt d p with
  | None => [Conflict p.2 p.1]
  | Some true => [Renaming p.1 p.2]
  | Some false => [Renaming p.1 p.2; FailedRename p.1 p.2]
  end.

End Attempt.

(** The line a preview run prints for a pair. *)
Definition decision (follows : gmap string entry -> string -> bool)
    (d : gmap string entry) (p : string * string) : line :=
  if path_exists follows d p.2 then Conflict p.2 p.1 else Renaming p.1 p.2.

(** The lines that say what was decided for a pair. *)
Definition is_decision (l : line) : bool :=
  match l with
  | Skipping _ | Conflict _ _ | Renaming _ _ => true
  | _ => false
  end.

(** Pairs that cannot interfere: no name is the source of two pairs or the
    target of two pairs, sources match the pattern and targets do not. *)
Definition independent (plan : list (string * string)) : Prop :=
  NoDup plan.*1 ∧ NoDup plan.*2
  ∧ ∀ o n, (o, n) ∈ plan → is_Some (PATTERN_match o) ∧ PATTERN_match n = None.

(** Both parts of a scanner's result, lower-cased. *)
Definition lower2 (p : string * string) : string * string :=
  (lower p.1, lower p.2).

(** The capture groups of the lower-cased name. *)
Definition lower_groups (g : groups) : groups :=
  Groups (lower (year g)) (lower (month g)) (lower (day g))
         (lower (hour g)) (lower (minute g)) (lower (second g))
         (lower (extension g)).

(** ** Kinds of directories *)

(** A regular file or a directory: an entry [os.path.exists] sees whatever
    else is in the directory. *)
Definition is_file_or_dir (o : option entry) : bool :=
  match o with
  | Some (File _) | Some (Dir _ _) => true
  | _ => false
  end.

(** No entry of the directory is a symbolic link. *)
Definition no_symlinks (d : gmap string entry) : Prop :=
  ∀ x data target, d !! x ≠ Some (Symlink data target).

(** No two names of the directory are hard links to one file. *)
Definition no_hard_links (d : gmap string entry) : Prop :=
  ∀ a b e, d !! a = Some e → d !! b = Some e → a = b.

(** A file system in which a link of the directory leads somewhere exactly
    when its target names a regular file or a directory of the directory. *)
Definition follow_here (d : gmap string entry) (target : string) : bool :=
  is_file_or_dir (d !! target).

(** The effect of a successful [os.rename o n] between two states of the
    directory: the target held neither a regular file nor a directory, it
    now holds the entry the source held, and the source name is free, or,
    when the two names were hard links to one file, both still hold it. *)
Definition renamed_to (d d' : gmap string entry) (o n : string) : Prop :=
  is_file_or_dir (d !! n) = false
  ∧ ∃ e, d !! o = Some e ∧ d' !! n = Some e
      ∧ (d' !! o = None ∨ d !! n = Some e ∧ d' !! o = Some e).

(** ** Concrete directories *)

Definition burst_a : string := "2022-01-14-14-33-00_photo_12.683_MB.jpg".

Definition burst_b : string := "2022-01-14-14-33-00_photo_9.1_MB.JPG".

Definition single : string := "2023-05-01-09-00-00_photo_3.2_MB.jpg".

Definition scenario_files : list string :=
  [burst_b; "vacation.jpg"; single; burst_a].

Definition scenario_dir : gmap string entry :=
  list_to_map [(burst_b, File 1); ("vacation.jpg", File 2);
               (single, File 3); (burst_a, File 4)].

Definition scenario_plan : list (string * string) :=
  [(burst_a, "20220114_143300_photo_1.jpg");
   (burst_b, "20220114_143300_photo_2.JPG");
   (single, "20230501_090000_photo.jpg")].

Definition burst_groups (ext : string) : groups :=
  Groups "2022" "01" "14" "14" "33" "00" ext.

Definition no_denial : string → string → bool := λ _ _, false.

(** Refuses the rename of [burst_a] and nothing else. *)
Definition deny_burst_a : string → string → bool :=
  λ src _, String.eqb src burst_a.

(** A directory where the name planned for [single] is a dangling link. *)
Definition dangling_dir : gmap string entry :=
  list_to_map [(single, File 1);
               ("20230501_090000_photo.jpg", Symlink 2 "gone.jpg")].

(** A directory where the first numbered name of the burst is taken. *)
Definition taken_dir : gmap string entry :=
  list_to_map [(burst_a, File 1); (burst_b, File 2);
               ("20220114_143300_photo_1.jpg", File 3)].

Definition world_of (r : result world) : world :=
  match r with
  | Ok w => w
  | Raise _ => World ∅ [] []
  end.

(** A directory where the name planned for [single] is a link to
    [burst_a]. *)
Definition linked_dir : gmap string entry :=
  list_to_map [(burst_a, File 1); (single, File 2);
               ("20230501_090000_photo.jpg", Symlink 3 burst_a)].

(** A run in [linked_dir] with the given listing. *)
Definition linked_run (dry_run : bool) (files : list string) : world :=
  world_of (rename_files_with_deduplication follow_here no_denial dry_run
              files (World linked_dir [] [])).

(** A directory where [single] and the name planned for it are hard links
    to one dangling link. *)
Definition hard_link_dir : gmap string entry :=
  list_to_map [(single, Symlink 1 "gone.jpg");
               ("20230501_090000_photo.jpg", Symlink 1 "gone.jpg")].

Definition hard_link_after_first : world :=
  world_of (rename_files_with_deduplication follow_here no_denial false
              [single; "20230501_090000_photo.jpg"]
              (World hard_link_dir [] [])).

Definition hard_link_after_second : world :=
  world_of (rename_files_with_deduplication follow_here no_denial false
              [single; "20230501_090000_photo.jpg"] hard_link_after_first).

Definition taken_after_first : world :=
  world_of (rename_files_with_deduplication follow_here no_denial false
              [burst_a; burst_b; "20220114_143300_photo_1.jpg"]
              (World taken_dir [] [])).

Definition taken_after_second : world :=
  world_of (rename_files_with_deduplication follow_here no_denial false
              [burst_a; "20220114_143300_photo_1.jpg";
               "20220114_143300_photo_2.JPG"]
              taken_after_first).

(** The scenario after an apply run in which the rename of [burst_a] is
    refused. *)
Definition refused_after : world :=
  world_of (rename_files_with_deduplication follow_here deny_burst_a false
              scenario_files (World scenario_dir [] [])).

Definition scenario_after_first : world :=
  world_of (rename_files_with_deduplication follow_here no_denial false
              scenario_files
              (World scenario_dir [] [])).

Definition scenario_relisted : list string :=
  ["20230501_090000_photo.jpg"; "vacation.jpg";
   "20220114_143300_photo_2.JPG"; "20220114_143300_photo_1.jpg"].

Definition scenario_after_second : world :=
  world_of (rename_files_with_deduplication follow_here no_denial false
              scenario_relisted
              scenario_after_first).

(** * Properties *)

(** ** Strings and characters *)

Section StringFacts.

Lemma append_cons (x : ascii) (a b : string) :
  String x a +:+ b = String x (a +:+ b).
Proof. reflexivity. Qed.

Lemma append_nil_l (a : string) : "" +:+ a = a.
Proof. reflexivity. Qed.

Lemma append_assoc (a b c : string) : (a +:+ b) +:+ c = a +:+ (b +:+ c).
Proof.
  induction a as [|x a IH]; [done|]. by rewrite !append_cons, IH.
Qed.

Lemma append_nil_r (a : string) : a +:+ "" = a.
Proof. induction a as [|x a IH]; [done|]. by rewrite append_cons, IH. Qed.

Lemma append_inv_length (a b c d : string) :
  String.length a = String.length c → a +:+ b = c +:+ d → a = c ∧ b = d.
Proof.
  revert c; induction a as [|x a IH]; intros [|y c] Hl He; simpl in *;
    try done.
  rewrite !append_cons in He. injection He as -> He. destruct (IH c) as [-> ->]; [lia | done | done].
Qed.

Lemma lower_length (s : string) : String.length (lower s) = String.length s.
Proof. induction s as [|c s IH]; simpl; [done | by rewrite IH]. Qed.

Lemma lower_eq_length (s t : string) :
  lower s = lower t → String.length s = String.length t.
Proof. intros H. by rewrite <- (lower_length s), H, lower_length. Qed.

Lemma tolower_uncased (c p : ascii) :
  is_digit p || Ascii.eqb p "-" || Ascii.eqb p "_" || Ascii.eqb p "." = true →
  tolower c = p → c = p.
Proof.
  destruct p as [[] [] [] [] [] [] [] []]; try discriminate; intros _;
    destruct c as [[] [] [] [] [] [] [] []]; vm_compute; congruence.
Qed.

Lemma tolower_idemp (c : ascii) : tolower (tolower c) = tolower c.
Proof. destruct c as [[] [] [] [] [] [] [] []]; reflexivity. Qed.

Lemma lower_idemp (s : string) : lower (lower s) = lower s.
Proof.
  induction s as [|c s IH]; simpl; [done | by rewrite tolower_idemp, IH].
Qed.

Lemma is_digit_not_sep (c : ascii) :
  is_digit c = true → c ≠ "-"%char ∧ c ≠ "_"%char.
Proof.
  destruct c as [[] [] [] [] [] [] [] []]; vm_compute; intros; try done;
    split; congruence.
Qed.

End StringFacts.

(** ** The scanner against the shape of the pattern *)

Section PatternFacts.

Lemma digits_inv n s d r :
  digits n s = Some (d, r) → s = d +:+ r ∧ is_digits n d.
Proof.
  revert s d r; induction n as [|n IH]; intros s d r H; simpl in H.
  - by simplify_eq.
  - destruct s as [|c s]; [done|].
    destruct (is_digit c) eqn:Hc; [|done].
    destruct (digits n s) as [[d' r']|] eqn:Hd; simplify_eq/=.
    destruct (IH _ _ _ Hd) as (-> & Hl & Hall).
    repeat split; simpl; [by rewrite Hl | by rewrite Hc].
Qed.

Lemma digits_intro n d r : is_digits n d → digits n (d +:+ r) = Some (d, r).
Proof.
  revert d; induction n as [|n IH]; intros [|c d] [Hl Hall];
    simpl in *; try done.
  apply andb_prop in Hall as [-> Hall].
  rewrite IH; [done | split; [lia | done]].
Qed.

Lemma literal_inv lit s t r :
  literal lit s = Some (t, r) → s = t +:+ r ∧ lower t = lower lit.
Proof.
  revert s t r; induction lit as [|p lit IH]; intros s t r H; simpl in H.
  - by simplify_eq.
  - destruct s as [|c s]; [done|].
    destruct (Ascii.eqb_spec (tolower c) (tolower p)) as [Hc|]; [|done].
    destruct (literal lit s) as [[t' r']|] eqn:Hl; simplify_eq/=.
    destruct (IH _ _ _ Hl) as (-> & Ht).
    by rewrite Hc, Ht.
Qed.

Lemma literal_intro lit t r :
  lower t = lower lit → literal lit (t +:+ r) = Some (t, r).
Proof.
  revert t; induction lit as [|p lit IH]; intros [|c t] H;
    simpl in *; try done.
  injection H as Hc Ht. rewrite Hc, Ascii.eqb_refl, IH; done.
Qed.

Lemma span_inv p s t r :
  span p s = (t, r) → s = t +:+ r ∧ string_forall p t = true ∧ stops p r.
Proof.
  revert t r; induction s as [|c s IH]; intros t r H; simpl in H.
  - by simplify_eq.
  - destruct (p c) eqn:Hc.
    + destruct (span p s) as [t' r'] eqn:Hs. simplify_eq.
      destruct (IH _ _ eq_refl) as (-> & Hall & Hr).
      simpl. by rewrite Hc.
    + by simplify_eq.
Qed.

Lemma span_intro p t r :
  string_forall p t = true → stops p r → span p (t +:+ r) = (t, r).
Proof.
  intros Hall Hr; induction t as [|c t IH]; simpl in *.
  - rewrite append_nil_l. destruct r as [|c r]; simpl in *; [done|].
    by rewrite Hr.
  - apply andb_prop in Hall as [Hc Hall]. rewrite ?append_cons. simpl.
    by rewrite Hc, IH.
Qed.

Lemma size_field_inv s t r :
  size_field s = Some (t, r) →
  s = t +:+ r ∧ t ≠ "" ∧ string_forall is_digit_or_dot t = true
  ∧ stops is_digit_or_dot r.
Proof.
  unfold size_field. destruct (span is_digit_or_dot s) as [t' r'] eqn:Hs.
  destruct t' as [|c t']; [done|]. intros; simplify_eq.
  destruct (span_inv _ _ _ _ Hs) as (-> & Hall & Hr). done.
Qed.

Lemma size_field_intro t r :
  t ≠ "" → string_forall is_digit_or_dot t = true →
  stops is_digit_or_dot r → size_field (t +:+ r) = Some (t, r).
Proof.
  intros Hne Hall Hr. unfold size_field. rewrite span_intro by done.
  by destruct t.
Qed.

Lemma at_end_spec s : at_end s = true ↔ s = "" ∨ s = String "010" "".
Proof.
  destruct s as [|c [|c' s]]; simpl.
  - split; [by left | done].
  - destruct (Ascii.eqb_spec c "010") as [->|Hc].
    + split; [by right | done].
    + split; [done | intros [|[= ?]]; done].
  - split; [done | intros [|]; done].
Qed.

Lemma lower_sep t : lower t = "-" → t = "-".
Proof.
  destruct t as [|c [|c' t]]; simpl; try done.
  intros [= H]. by rewrite (tolower_uncased c "-").
Qed.

Ltac invert_scan H :=
  let E := fresh "E" in
  apply bind_Some in H as ([? ?] & E & H); cbv beta iota in H;
  lazymatch type of E with
  | digits _ _ = _ => apply digits_inv in E as [-> ?]
  | literal _ _ = _ => apply literal_inv in E as [-> ?]
  | size_field _ = _ => apply size_field_inv in E as (-> & ? & ? & ?)
  end.

Lemma PATTERN_match_shape s g : PATTERN_match s = Some g → pattern_shape s g.
Proof.
  unfold PATTERN_match. intros H.
  do 15 invert_scan H.
  destruct (at_end _) eqn:Hend in H; [|done].
  injection H as <-. apply at_end_spec in Hend.
  repeat match goal with
  | H : lower ?t = lower "-" |- _ => apply lower_sep in H; subst t
  end.
  unfold pattern_shape. eexists _, _, _, _. simpl.
  split; [reflexivity|].
  repeat match goal with |- _ ∧ _ => split end; done.
Qed.

Lemma option_bind_Some {A B} (x : A) (f : A → option B) :
  Some x ≫= f = f x.
Proof. reflexivity. Qed.

Lemma lower_underscore_stops t r :
  lower t = "_mb" → stops is_digit_or_dot (t +:+ r).
Proof.
  destruct t as [|c t]; [done|]. intros [= Hc _].
  by rewrite (tolower_uncased c "_").
Qed.

Lemma shape_PATTERN_match s g : pattern_shape s g → PATTERN_match s = Some g.
Proof.
  intros (photo & size & mb & nl & -> & Hy & Hmo & Hd & Hh & Hmi & Hse
          & Hphoto & Hne & Hsize & Hmb & Hext & Hnl).
  unfold PATTERN_match.
  repeat first
    [ rewrite digits_intro by done
    | rewrite (literal_intro "-" "-") by done
    | rewrite (literal_intro "_photo_" photo) by done
    | rewrite (literal_intro "_MB" mb) by done
    | rewrite (literal_intro ".jpg" (extension g)) by done
    | rewrite size_field_intro by eauto using lower_underscore_stops
    | rewrite option_bind_Some; cbv beta iota ].
  replace (at_end nl) with true by (symmetry; by apply at_end_spec).
  by destruct g.
Qed.

Lemma PATTERN_match_iff s g : PATTERN_match s = Some g ↔ pattern_shape s g.
Proof. split; [apply PATTERN_match_shape | apply shape_PATTERN_match]. Qed.

End PatternFacts.

(** ** Dictionaries *)

Section DictFacts.
Context {V : Type}.
Implicit Types (d : list (string * V)) (k : string) (v : V).

Lemma get_set k k' v d :
  Dict.get k (Dict.set k' v d)
  = if String.eqb k k' then Some v else Dict.get k d.
Proof.
  induction d as [|[k0 v0] d IH]; simpl; [done|].
  destruct (String.eqb_spec k' k0) as [->|Hk']; simpl.
  - destruct (String.eqb_spec k k0); done.
  - destruct (String.eqb_spec k k0) as [->|Hk].
    + destruct (String.eqb_spec k0 k'); [congruence | done].
    + done.
Qed.

Lemma elem_of_set k v d (p : string * V) :
  p ∈ Dict.set k v d → p = (k, v) ∨ p ∈ d.
Proof.
  induction d as [|[k0 v0] d IH]; simpl.
  - intros ->%list_elem_of_singleton. by left.
  - destruct (String.eqb_spec k k0) as [->|Hk].
    + intros [->|?]%elem_of_cons; [by left | right; by right].
    + intros [->|?]%elem_of_cons; [right; by left|].
      destruct IH as [?|?]; [done | by left | right; by right].
Qed.

Lemma keys_set k v d :
  Dict.keys (Dict.set k v d)
  = if bool_decide (k ∈ Dict.keys d) then Dict.keys d else Dict.keys d ++ [k].
Proof.
  induction d as [|[k0 v0] d IH]; simpl; [done|].
  destruct (String.eqb_spec k k0) as [->|Hk]; simpl.
  - rewrite bool_decide_eq_true_2; [done | by left].
  - rewrite IH. destruct (decide (k ∈ Dict.keys d)) as [H1|H1].
    + rewrite (bool_decide_eq_true_2 _ H1).
      rewrite bool_decide_eq_true_2; [done | by right].
    + rewrite (bool_decide_eq_false_2 _ H1).
      rewrite bool_decide_eq_false_2; [done|].
      by intros [?|?]%elem_of_cons.
Qed.

Lemma keys_set_NoDup k v d :
  NoDup (Dict.keys d) → NoDup (Dict.keys (Dict.set k v d)).
Proof.
  intros Hd. rewrite keys_set. case_bool_decide as Hk; [done|].
  apply NoDup_app. split_and!; [done | | apply NoDup_singleton].
  intros x Hx ->%list_elem_of_singleton. done.
Qed.

Lemma get_Some_elem k v d : Dict.get k d = Some v → (k, v) ∈ d.
Proof.
  induction d as [|[k0 v0] d IH]; simpl; [done|].
  destruct (String.eqb_spec k k0) as [->|Hk].
  - intros [= ->]. by left.
  - intros H. right. by apply IH.
Qed.

Lemma get_None_keys k d : Dict.get k d = None ↔ k ∉ Dict.keys d.
Proof.
  induction d as [|[k0 v0] d IH]; simpl.
  - split; [intros _ H; by apply elem_of_nil in H | done].
  - destruct (String.eqb_spec k k0) as [->|Hk].
    + split; [done | intros H; destruct H; by left].
    + rewrite IH. split.
      * intros H [?|?]%elem_of_cons; done.
      * intros H ?. apply H. by right.
Qed.

Lemma elem_get_NoDup k v d :
  NoDup (Dict.keys d) → (k, v) ∈ d → Dict.get k d = Some v.
Proof.
  induction d as [|[k0 v0] d IH]; simpl.
  - intros _ H. by apply elem_of_nil in H.
  - intros [Hk0 Hd]%NoDup_cons [[= -> ->]|Hin]%elem_of_cons.
    + by rewrite String.eqb_refl.
    + destruct (String.eqb_spec k k0) as [->|Hk]; [|by apply IH].
      destruct Hk0. apply list_elem_of_fmap. by exists (k0, v).
Qed.

Lemma assign_all_app ps qs d :
  assign_all (ps ++ qs) d = assign_all qs (assign_all ps d).
Proof. apply fold_left_app. Qed.

Lemma elem_of_assign_all ps d (p : string * V) :
  p ∈ assign_all ps d → p ∈ ps ∨ p ∈ d.
Proof.
  revert d; induction ps as [|[k v] ps IH]; intros d; simpl; [by right|].
  intros [Hp|Hp]%IH; [left; by right|].
  apply elem_of_set in Hp as [->|?]; [left; by left | by right].
Qed.

Lemma assign_all_NoDup ps d :
  NoDup (Dict.keys d) → NoDup (Dict.keys (assign_all ps d)).
Proof.
  revert d; induction ps as [|[k v] ps IH]; intros d Hd; simpl; [done|].
  by apply IH, keys_set_NoDup.
Qed.

Lemma get_assign_all_other k ps d :
  k ∉ ps.*1 → Dict.get k (assign_all ps d) = Dict.get k d.
Proof.
  revert d; induction ps as [|[k' v'] ps IH]; intros d Hk; simpl; [done|].
  rewrite IH, get_set.
  - destruct (String.eqb_spec k k') as [->|]; [|done].
    destruct Hk. by left.
  - intros ?. apply Hk. by right.
Qed.

(** A key assigned with one value only ends up with that value. *)
Lemma get_assign_all_unique k v ps d :
  (k, v) ∈ ps → (∀ v', (k, v') ∈ ps → v' = v) →
  Dict.get k (assign_all ps d) = Some v.
Proof.
  revert d; induction ps as [|[k' v'] ps IH]; intros d Hin Huniq; simpl.
  - by apply elem_of_nil in Hin.
  - destruct (decide (k ∈ ps.*1)) as [Hk|Hk].
    + apply list_elem_of_fmap in Hk as ([k1 v1] & -> & Hk).
      simpl in *. rewrite (Huniq v1) in Hk by by right.
      apply IH; [done|]. intros v2 H2. apply Huniq. by right.
    + rewrite get_assign_all_other, get_set by done.
      apply elem_of_cons in Hin as [[= <- <-]|Hin].
      * by rewrite String.eqb_refl.
      * destruct Hk. apply list_elem_of_fmap. by exists (k, v).
Qed.

End DictFacts.

Section GroupFacts.
Implicit Types (g : list (string * list string)) (k f : string).

Lemma get_append k k' f g :
  Dict.get k (Dict.append k' f g)
  = if String.eqb k k' then Some (default [] (Dict.get k g) ++ [f])
    else Dict.get k g.
Proof.
  induction g as [|[k0 vs] g IH]; simpl; [done|].
  destruct (String.eqb_spec k' k0) as [->|Hk']; simpl.
  - destruct (String.eqb_spec k k0); done.
  - destruct (String.eqb_spec k k0) as [->|Hk].
    + destruct (String.eqb_spec k0 k'); [congruence | done].
    + done.
Qed.

Lemma keys_append k f g :
  Dict.keys (Dict.append k f g)
  = if bool_decide (k ∈ Dict.keys g) then Dict.keys g else Dict.keys g ++ [k].
Proof.
  induction g as [|[k0 vs] g IH]; simpl; [done|].
  destruct (String.eqb_spec k k0) as [->|Hk]; simpl.
  - rewrite bool_decide_eq_true_2; [done | by left].
  - rewrite IH. destruct (decide (k ∈ Dict.keys g)) as [H1|H1].
    + rewrite (bool_decide_eq_true_2 _ H1).
      rewrite bool_decide_eq_true_2; [done | by right].
    + rewrite (bool_decide_eq_false_2 _ H1).
      rewrite bool_decide_eq_false_2; [done|].
      by intros [?|?]%elem_of_cons.
Qed.

Lemma keys_append_NoDup k f g :
  NoDup (Dict.keys g) → NoDup (Dict.keys (Dict.append k f g)).
Proof.
  intros Hd. rewrite keys_append. case_bool_decide as Hk; [done|].
  apply NoDup_app. split_and!; [done | | apply NoDup_singleton].
  intros x Hx ->%list_elem_of_singleton. done.
Qed.

End GroupFacts.

(** ** The order on file names *)

Section OrderFacts.

Lemma str_le_iff a b : str_le a b ↔ a = b ∨ String_as_OT.lt a b.
Proof.
  unfold str_le, String.leb.
  rewrite <- String_as_OT.cmp_lt, <- String_as_OT.cmp_eq.
  unfold String_as_OT.cmp. destruct (String.compare a b); split; try done.
  - by left.
  - by right.
  - intros [?|?]; done.
Qed.

#[global] Instance str_le_total : Total str_le.
Proof. intros a b. apply String.leb_total. Qed.

#[global] Instance str_le_antisym : AntiSymm (=) str_le.
Proof. intros a b. apply String.leb_antisym. Qed.

#[global] Instance str_le_trans : Transitive str_le.
Proof.
  intros a b c [->|Hab]%str_le_iff [->|Hbc]%str_le_iff; apply str_le_iff;
    eauto using String_as_OT.lt_trans.
Qed.

Lemma list_sort_perm l : list_sort l ≡ₚ l.
Proof. apply merge_sort_Permutation. Qed.

Lemma list_sort_sorted l : StronglySorted str_le (list_sort l).
Proof. apply StronglySorted_merge_sort; apply _. Qed.

(** [list.sort] is determined by its input as a multiset. *)
Lemma list_sort_unique l l' :
  StronglySorted str_le l' → l' ≡ₚ l → l' = list_sort l.
Proof.
  intros Hs Hp. apply (StronglySorted_unique str_le);
    [done | apply list_sort_sorted | by rewrite list_sort_perm].
Qed.

Lemma elem_of_list_sort x l : x ∈ list_sort l ↔ x ∈ l.
Proof. by rewrite list_sort_perm. Qed.

End OrderFacts.

(** ** The plan as a function of the matching files *)

Section PlannerFacts.
Implicit Types (g : list (string * list string)) (k f : string).

Lemma elem_of_matching_files f files :
  f ∈ matching_files files ↔ is_Some (PATTERN_match f) ∧ f ∈ files.
Proof. unfold matching_files. by rewrite list_elem_of_filter. Qed.

Lemma matching_files_all_match files : all_match (matching_files files).
Proof.
  apply Forall_forall. intros f Hf.
  by apply elem_of_matching_files in Hf as [? _].
Qed.

Lemma group_step_pure l g out :
  all_match l → fold_left group_step l (g, out) = (fold_left group_pure l g, out).
Proof.
  intros Hl; revert g; induction Hl as [|f l [m Hm] _ IH]; intros g; simpl;
    [done|].
  unfold group_step at 2, group_pure at 2. rewrite Hm. simpl. apply IH.
Qed.

Lemma get_group_fold k l g :
  Dict.get k (fold_left group_pure l g)
  = merge_group (Dict.get k g) (same_key k l).
Proof.
  revert g; induction l as [|f l IH]; intros g; simpl; [done|].
  rewrite IH. unfold group_pure, same_key, key_of.
  rewrite filter_cons.
  destruct (PATTERN_match f) as [m|] eqn:Hm; simpl.
  - rewrite get_append. case_decide as Hk.
    + injection Hk as <-. rewrite String.eqb_refl.
      destruct (filter _ l); simpl; [done|].
      by rewrite <- app_assoc.
    + destruct (String.eqb_spec k (new_base_name m)); [congruence|done].
  - try case_decide; done.
Qed.

Lemma groups_of_keys_NoDup l : NoDup (Dict.keys (groups_of l)).
Proof.
  unfold groups_of. generalize (NoDup_nil_2 (A:=string)).
  change [] with (Dict.keys (@nil (string * list string))) at 1.
  generalize (@nil (string * list string)).
  induction l as [|f l IH]; intros g Hg; simpl; [done|].
  apply IH. unfold group_pure. destruct (PATTERN_match f); [|done].
  by apply keys_append_NoDup.
Qed.

Lemma groups_of_get k l :
  Dict.get k (groups_of l)
  = match same_key k l with [] => None | vs => Some vs end.
Proof.
  unfold groups_of. rewrite get_group_fold. simpl.
  by destruct (same_key k l).
Qed.

Lemma groups_of_elem k vs l :
  (k, vs) ∈ groups_of l ↔ vs = same_key k l ∧ vs ≠ [].
Proof.
  split.
  - intros H. apply elem_get_NoDup in H; [|apply groups_of_keys_NoDup].
    rewrite groups_of_get in H. destruct (same_key k l); by simplify_eq.
  - intros [-> Hne]. apply get_Some_elem. rewrite groups_of_get.
    by destruct (same_key k l).
Qed.

Lemma elem_of_same_key k f l : f ∈ same_key k l ↔ key_of f = Some k ∧ f ∈ l.
Proof. unfold same_key. by rewrite list_elem_of_filter. Qed.

Lemma key_of_Some f k :
  key_of f = Some k ↔ ∃ m, PATTERN_match f = Some m ∧ new_base_name m = k.
Proof.
  unfold key_of. destruct (PATTERN_match f) as [m|]; simpl.
  - split; [intros [= <-]; by exists m | intros (? & [= <-] & <-); done].
  - split; [done | intros (? & ? & _); done].
Qed.

Lemma numbered_step_pure base ixs plan out :
  all_match ixs.*2 →
  fold_left (numbered_step base) ixs (plan, out)
  = (assign_all ((λ ix, (ix.2, numbered_name base ix)) <$> ixs) plan, out).
Proof.
  revert plan; induction ixs as [|[i f] ixs IH]; intros plan Hm; simpl;
    [done|].
  apply Forall_cons in Hm as [[m Hf] Hm]. simpl in Hf.
  unfold numbered_step at 2. simpl. rewrite Hf. simpl.
  rewrite IH by done. unfold numbered_name, ext_of. simpl.
  by rewrite Hf.
Qed.

Lemma enumerate_snd i l : (enumerate i l).*2 = l.
Proof. revert i; induction l as [|x l IH]; intros i; simpl; [done|].
  by rewrite IH. Qed.

Lemma enumerate_lookup i l j x :
  enumerate i l !! j = Some x ↔ x.1 = i + j ∧ l !! j = Some x.2.
Proof.
  revert i j; induction l as [|y l IH]; intros i j; simpl.
  - split; [done | intros [_ ?]; done].
  - destruct j as [|j]; simpl.
    + destruct x as [n z]; simpl. split.
      * intros [= <- <-]. split; [lia | done].
      * intros [-> [= ->]]. do 2 f_equal. lia.
    + rewrite IH. split; intros [? ?]; split; first [done | lia].
Qed.

Lemma plan_step_pure plan out group :
  all_match group.2 →
  plan_step (plan, out) group = Ok (assign_all (group_pairs group) plan, out).
Proof.
  intros Hm. unfold plan_step, group_pairs. simpl.
  assert (all_match (list_sort group.2)) as Hs.
  { unfold all_match in *. rewrite Forall_forall in Hm.
    apply Forall_forall. intros x Hx. rewrite elem_of_list_sort in Hx.
    by apply Hm. }
  destruct (Nat.eqb_spec (length (list_sort group.2)) 1) as [Hlen|Hlen].
  - destruct (list_sort group.2) as [|o [|? ?]]; simplify_eq/=.
    apply Forall_cons in Hs as [[m Ho] _]. rewrite Ho.
    unfold ext_of. by rewrite Ho.
  - rewrite numbered_step_pure; [done|]. by rewrite enumerate_snd.
Qed.

Lemma plan_loop_pure groups plan out :
  Forall (λ group, all_match group.2) groups →
  plan_loop groups (plan, out)
  = Ok (assign_all (mjoin (group_pairs <$> groups)) plan, out).
Proof.
  intros Hg; revert plan; induction Hg as [|group groups Hm _ IH];
    intros plan; simpl; [done|].
  rewrite plan_step_pure by done. simpl.
  rewrite IH. by rewrite assign_all_app.
Qed.

Lemma groups_of_all_match l :
  Forall (λ group, all_match group.2) (groups_of l).
Proof.
  apply Forall_forall. intros [k vs] [-> _]%groups_of_elem.
  apply Forall_forall. intros f [Hk _]%elem_of_same_key. simpl.
  apply key_of_Some in Hk as (m & -> & _). by eexists.
Qed.

(** Planning never raises and prints nothing. *)
Lemma rename_plan_pure matching :
  all_match matching → rename_plan matching = Ok (plan_of matching, []).
Proof.
  intros Hm. unfold rename_plan, timestamp_groups.
  rewrite group_step_pure by done.
  apply plan_loop_pure, groups_of_all_match.
Qed.

Lemma elem_of_group_pairs k vs o n :
  (o, n) ∈ group_pairs (k, vs)
  ↔ ∃ j, list_sort vs !! j = Some o ∧ n = new_name_at k (list_sort vs) j o.
Proof.
  unfold group_pairs, new_name_at. simpl.
  destruct (Nat.eqb (length (list_sort vs)) 1).
  - rewrite list_elem_of_fmap. split.
    + intros (x & [= -> ->] & [j Hj]%list_elem_of_lookup). eauto.
    + intros (j & Hj & ->). exists o. split; [done|].
      apply list_elem_of_lookup. eauto.
  - rewrite list_elem_of_fmap. split.
    + intros ([i x] & [= -> ->] & [j Hj]%list_elem_of_lookup).
      apply enumerate_lookup in Hj as [Hi Hj]. simpl in *. subst i.
      exists j. done.
    + intros (j & Hj & ->). exists (S j, o). split; [done|].
      apply list_elem_of_lookup. exists j. by apply enumerate_lookup.
Qed.

Lemma elem_of_plan_pairs matching o n :
  (o, n) ∈ mjoin (group_pairs <$> groups_of matching)
  ↔ ∃ k j, key_of o = Some k
      ∧ list_sort (same_key k matching) !! j = Some o
      ∧ n = new_name_at k (list_sort (same_key k matching)) j o.
Proof.
  rewrite list_elem_of_join. split.
  - intros (ps & Hin & ([k vs] & -> & Hg)%list_elem_of_fmap).
    apply groups_of_elem in Hg as [-> _].
    apply elem_of_group_pairs in Hin as (j & Hj & ->).
    exists k, j. split_and!; [|done..].
    assert (o ∈ list_sort (same_key k matching)) as Ho
      by (apply list_elem_of_lookup; eauto).
    rewrite elem_of_list_sort in Ho. by apply elem_of_same_key in Ho as [? _].
  - intros (k & j & Hk & Hj & ->).
    exists (group_pairs (k, same_key k matching)). split.
    + apply elem_of_group_pairs. eauto.
    + apply list_elem_of_fmap. eexists; split; [done|].
      apply groups_of_elem. split; [done|].
      intros Hnil. rewrite Hnil in Hj. by vm_compute in Hj.
Qed.

Lemma ext_of_match o m : PATTERN_match o = Some m → ext_of o = extension m.
Proof. unfold ext_of. by intros ->. Qed.

(** Every pair of the plan: a matching file, renamed to its base key, an
    optional counter, and its own extension. *)
Lemma plan_of_elem matching o n :
  (o, n) ∈ plan_of matching →
  ∃ m sfx, o ∈ matching ∧ PATTERN_match o = Some m
    ∧ n = new_base_name m +:+ sfx +:+ extension m.
Proof.
  intros [H|H]%elem_of_assign_all; [|by apply elem_of_nil in H].
  apply elem_of_plan_pairs in H as (k & j & Hk & Hj & ->).
  assert (o ∈ matching) as Ho.
  { assert (o ∈ list_sort (same_key k matching)) as Ho
      by (apply list_elem_of_lookup; eauto).
    rewrite elem_of_list_sort in Ho. by apply elem_of_same_key in Ho as [_ ?]. }
  apply key_of_Some in Hk as (m & Hm & <-).
  unfold new_name_at, numbered_name. simpl. rewrite (ext_of_match o m Hm).
  destruct (Nat.eqb _ 1).
  - by exists m, "".
  - exists m, ("_" +:+ str_of_nat (S j)). split_and!; [done..|].
    by rewrite append_assoc.
Qed.

Lemma plan_of_keys_NoDup matching : NoDup (Dict.keys (plan_of matching)).
Proof. apply assign_all_NoDup. constructor. Qed.

Lemma same_key_NoDup k l : NoDup l → NoDup (list_sort (same_key k l)).
Proof.
  intros Hl. rewrite list_sort_perm. by apply NoDup_filter.
Qed.

(** With every file listed once, the plan maps the file at position [j] of
    its sorted group to the name for that position. *)
Lemma plan_of_get matching k j f :
  NoDup matching → key_of f = Some k →
  list_sort (same_key k matching) !! j = Some f →
  Dict.get f (plan_of matching)
  = Some (new_name_at k (list_sort (same_key k matching)) j f).
Proof.
  intros Hnd Hk Hj. apply get_assign_all_unique.
  - apply elem_of_plan_pairs. eauto.
  - intros v' (k' & j' & Hk' & Hj' & ->)%elem_of_plan_pairs.
    assert (k' = k) as -> by congruence.
    by rewrite (NoDup_lookup _ j' j f (same_key_NoDup k _ Hnd) Hj' Hj).
Qed.

Lemma plan_of_get_Some matching o n :
  Dict.get o (plan_of matching) = Some n ↔ (o, n) ∈ plan_of matching.
Proof.
  split; [apply get_Some_elem|].
  apply elem_get_NoDup, plan_of_keys_NoDup.
Qed.

Lemma same_key_matching k files :
  same_key k (matching_files files) = same_key k files.
Proof.
  unfold same_key, matching_files.
  induction files as [|f files IH]; [done|].
  rewrite !filter_cons. destruct (decide (key_of f = Some k)) as [Hk|Hk].
  - apply key_of_Some in Hk as Hm. destruct Hm as (m & Hm & _).
    rewrite decide_True by (by eexists). rewrite filter_cons.
    rewrite decide_True by done. by rewrite IH.
  - case_decide; [|done]. rewrite filter_cons. by rewrite decide_False.
Qed.

Lemma keys_assign_all {V} k (ps d : list (string * V)) :
  k ∈ ps.*1 → k ∈ Dict.keys (assign_all ps d).
Proof.
  intros Hk. destruct (Dict.get k (assign_all ps d)) eqn:Hg.
  - apply get_Some_elem in Hg. apply list_elem_of_fmap. by eexists (_, _).
  - apply get_None_keys in Hg. exfalso. revert d Hg.
    induction ps as [|[k' v'] ps IH]; intros d Hg; simpl in *.
    + by apply elem_of_nil in Hk.
    + apply elem_of_cons in Hk as [->|Hk]; [|by eapply IH].
      destruct (decide (k' ∈ ps.*1)) as [?|Hn]; [by eapply IH|].
      apply get_None_keys in Hg.
      rewrite get_assign_all_other, get_set, String.eqb_refl in Hg; done.
Qed.

(** The plan has a pair for every matching file. *)
Lemma plan_of_keys matching f :
  f ∈ Dict.keys (plan_of matching) ↔ f ∈ matching ∧ is_Some (PATTERN_match f).
Proof.
  split.
  - intros ([o n] & -> & Hin)%list_elem_of_fmap.
    apply plan_of_elem in Hin as (m & _ & ? & Hm & _). simpl. split; [done|].
    by eexists.
  - intros [Hf [m Hm]]. apply keys_assign_all.
    assert (key_of f = Some (new_base_name m)) as Hk
      by (apply key_of_Some; eauto).
    assert (f ∈ list_sort (same_key (new_base_name m) matching)) as Hs.
    { rewrite elem_of_list_sort. by apply elem_of_same_key. }
    apply list_elem_of_lookup in Hs as [j Hj].
    apply list_elem_of_fmap. eexists (f, _). split; [done|].
    apply elem_of_plan_pairs. eauto.
Qed.

Lemma append_inv_head (a b c : string) : a +:+ b = a +:+ c → b = c.
Proof. intros H. by apply (append_inv_length a b a c) in H as [_ ?]. Qed.

Lemma is_digits_S n s :
  is_digits (S n) s → ∃ c s', s = String c s' ∧ is_digit c = true.
Proof.
  intros [Hl Hall]. destruct s as [|c s']; [done|]. simpl in Hall.
  apply andb_prop in Hall as [? _]. eauto.
Qed.

(** A name of the new scheme has a digit where the pattern wants the first
    dash: such a name never matches [PATTERN]. *)
Lemma new_name_no_match m sfx :
  is_digits 4 (year m) → is_digits 2 (month m) →
  PATTERN_match (new_base_name m +:+ sfx +:+ extension m) = None.
Proof.
  intros Hy Hmo.
  destruct (PATTERN_match _) as [m'|] eqn:Hm'; [exfalso|done].
  apply PATTERN_match_shape in Hm'
    as (photo & size & mb & nl & He & Hy' & _).
  unfold new_base_name in He. rewrite !append_assoc in He.
  apply append_inv_length in He as [_ He];
    [|destruct Hy as [-> _], Hy' as [-> _]; done].
  apply is_digits_S in Hmo as (c & s' & Heq & Hc).
  rewrite Heq, !append_cons in He. injection He as -> _.
  by apply is_digit_not_sep in Hc as [? _].
Qed.

(** A matching name and a name of the new scheme for it differ. *)
Lemma new_name_differs o m sfx :
  PATTERN_match o = Some m → new_base_name m +:+ sfx +:+ extension m ≠ o.
Proof.
  intros Hm He.
  apply PATTERN_match_shape in Hm as Hs.
  destruct Hs as (_ & _ & _ & _ & _ & Hy & Hmo & _).
  rewrite <- He, new_name_no_match in Hm; done.
Qed.

End PlannerFacts.

(** ** Executing a plan *)

Section ExecFacts.
Variable follows : gmap string entry -> string -> bool.
Variable denied : string -> string -> bool.

(** A successful [os.rename] either leaves the directory as it is (one
    name, or two hard links to one file) or moves the entry. *)
Lemma os_rename_Ok src dst d d' :
  os_rename denied src dst d = Ok d' →
  ∃ e, d !! src = Some e
    ∧ (d' = d ∧ (src = dst ∨ d !! dst = Some e)
       ∨ src ≠ dst ∧ d !! dst ≠ Some e ∧ d' = <[dst := e]> (delete src d)).
Proof.
  unfold os_rename. destruct (denied src dst); [done|].
  destruct (d !! src) as [e|]; [|done]. intros H. exists e. split; [done|].
  destruct (String.eqb_spec src dst) as [->|Hne].
  { left. split; [by simplify_eq | by left]. }
  destruct (d !! dst) as [t|]; [|right; by simplify_eq].
  case_bool_decide as Het.
  { left. subst t. split; [by simplify_eq | by right]. }
  right. split_and!; [done | congruence |].
  destruct e, t as [| ? []|]; by simplify_eq.
Qed.

Lemma os_rename_Raise src dst d e :
  os_rename denied src dst d = Raise e → e = OSError.
Proof.
  unfold os_rename. destruct (denied src dst); [by intros [= <-]|].
  destruct (d !! src) as [e'|]; [|by intros [= <-]].
  destruct (String.eqb src dst); [done|].
  destruct (d !! dst) as [t|]; [|done].
  case_bool_decide; [done|].
  destruct e', t as [| ? []|]; by intros [= <-].
Qed.

Lemma execute_step_spec dry_run w o n :
  ∃ w', execute_step follows denied dry_run w (o, n) = Ok w'
    ∧ step follows denied dry_run w o n w'.
Proof.
  unfold execute_step.
  destruct (String.eqb_spec o n) as [Heq|Hne].
  { eexists; split; [done|]. by constructor. }
  destruct (path_exists follows (dir w) n) eqn:Hex; simpl.
  { destruct (String.eqb_spec n o) as [?|_]; [congruence|]. simpl.
    eexists; split; [done|]. by constructor. }
  destruct dry_run.
  { eexists; split; [done|]. by constructor. }
  destruct (os_rename denied o n (dir w)) as [d'|e] eqn:Hr.
  - eexists; split; [done|]. by apply step_renamed.
  - apply os_rename_Raise in Hr as He. subst e.
    eexists; split; [done|]. unfold print; simpl.
    rewrite <- app_assoc. by apply step_failed.
Qed.

Lemma execute_cons dry_run p plan w :
  execute follows denied dry_run (p :: plan) w
  = result_bind (execute_step follows denied dry_run w p)
      (execute follows denied dry_run plan).
Proof. reflexivity. Qed.

(** The loop of step 4 always runs to its end. *)
Lemma execute_steps dry_run plan w :
  ∃ w', execute follows denied dry_run plan w = Ok w'
    ∧ steps follows denied dry_run w plan w'.
Proof.
  revert w; induction plan as [|[o n] plan IH]; intros w.
  - eexists; split; [done | constructor].
  - rewrite execute_cons.
    destruct (execute_step_spec dry_run w o n) as (w1 & -> & Hs). simpl.
    destruct (IH w1) as (w' & -> & Hss).
    eexists; split; [done|]. by econstructor.
Qed.


Lemma step_grows dry_run w o n w' :
  step follows denied dry_run w o n w' →
  (∃ out, stdout w' = stdout w ++ out) ∧ (∃ cs, calls w' = calls w ++ cs).
Proof.
  destruct 1; simpl; split; eauto; by exists []; rewrite app_nil_r.
Qed.

Lemma steps_grows dry_run w plan w' :
  steps follows denied dry_run w plan w' →
  (∃ out, stdout w' = stdout w ++ out) ∧ (∃ cs, calls w' = calls w ++ cs).
Proof.
  induction 1 as [w|w o n w1 plan w' Hs _ [[out2 IH1] [cs2 IH2]]].
  - split; by exists []; rewrite app_nil_r.
  - apply step_grows in Hs as [[out1 H1] [cs1 H2]].
    rewrite IH1, IH2, H1, H2, <- !app_assoc. eauto.
Qed.

Lemma steps_stdout_mono dry_run w plan w' l :
  steps follows denied dry_run w plan w' → l ∈ stdout w → l ∈ stdout w'.
Proof.
  intros [[out ->] _]%steps_grows ?. apply elem_of_app. by left.
Qed.


(** Preview: neither the directory nor the trace of calls moves. *)
Lemma steps_preview w plan w' :
  steps follows denied true w plan w' → dir w' = dir w ∧ calls w' = calls w.
Proof.
  induction 1 as [w|w o n w1 plan w' Hs _ [IH1 IH2]]; [done|].
  rewrite IH1, IH2. by destruct Hs.
Qed.



(** Failed calls are the ones reported as failures. *)
Lemma steps_failed_reported dry_run w plan w' o n :
  steps follows denied dry_run w plan w' →
  (o, n, false) ∈ calls w' →
  (o, n, false) ∈ calls w ∨ FailedRename o n ∈ stdout w'.
Proof.
  induction 1 as [w|w o1 n1 w1 plan w' Hs Hss IH]; [by left|].
  intros [Hin|Hin]%IH; [|by right].
  destruct Hs; simpl in *; try by left.
  - apply elem_of_app in Hin as [?|Hin]; [by left|].
    by apply list_elem_of_singleton in Hin.
  - apply elem_of_app in Hin as [?|Hin]; [by left|].
    apply list_elem_of_singleton in Hin as [= -> ->]. right.
    eapply steps_stdout_mono; [done|]. simpl.
    apply elem_of_app; right. right; by left.
Qed.

Lemma no_hard_links_rename d o n e :
  no_hard_links d → d !! o = Some e → o ≠ n →
  no_hard_links (<[n := e]> (delete o d)).
Proof.
  intros Hnh Ho Hne a b e0 Ha Hb.
  assert (∀ x, x ≠ n → <[n:=e]> (delete o d) !! x = Some e0 →
            x ≠ o ∧ d !! x = Some e0) as Hold.
  { intros x Hx. rewrite lookup_insert_ne by done.
    destruct (decide (x = o)) as [->|?]; [by rewrite lookup_delete_eq|].
    by rewrite lookup_delete_ne. }
  destruct (decide (a = n)) as [->|Han], (decide (b = n)) as [->|Hbn];
    [done | | |].
  - rewrite lookup_insert_eq in Ha. injection Ha as <-.
    destruct (Hold b Hbn Hb) as [Hbo Hb']. destruct Hbo. by eapply Hnh.
  - rewrite lookup_insert_eq in Hb. injection Hb as <-.
    destruct (Hold a Han Ha) as [Hao Ha']. destruct Hao. by eapply Hnh.
  - destruct (Hold a Han Ha) as [_ Ha'], (Hold b Hbn Hb) as [_ Hb'].
    by eapply Hnh.
Qed.

(** When an apply run in a directory without hard links reports no conflict
    and no failure, the matching names it leaves are names it had no pair
    for. *)
Lemma steps_clean_leaves w plan w' name :
  steps follows denied false w plan w' →
  no_hard_links (dir w) →
  (∀ o n, (o, n) ∈ plan → is_Some (PATTERN_match o) ∧ PATTERN_match n = None) →
  Forall clean (stdout w') →
  is_Some (dir w' !! name) → is_Some (PATTERN_match name) →
  is_Some (dir w !! name) ∧ name ∉ plan.*1.
Proof.
  intros Hss Hnh Hplan Hclean. rewrite Forall_forall in Hclean.
  induction Hss as [w|w o n w1 plan w' Hs Hss IH]; intros Hin Hm.
  { split; [done | apply not_elem_of_nil]. }
  destruct (Hplan o n) as [Ho Hn]; [by left|].
  assert (∀ l, l ∈ stdout w1 → clean l) as Hclean1.
  { intros l ?. apply Hclean. by eapply steps_stdout_mono. }
  assert (∃ e, dir w !! o = Some e ∧ o ≠ n
               ∧ dir w1 = <[n := e]> (delete o (dir w)))
    as (e & Hlo & Hne & Hd1).
  { destruct Hs as [Heq|? ?| |d' Hne Hex _ Hr|]; simpl in *.
    - subst n. rewrite Hn in Ho. by destruct Ho.
    - destruct (Hclean1 (Conflict n o)).
      apply elem_of_app; right. by left.
    - done.
    - destruct (os_rename_Ok _ _ _ _ Hr)
        as (e & He & [[_ [?|Hsame]]|(_ & _ & ->)]); [done | | by eauto].
      destruct Hne. by eapply Hnh.
    - destruct (Hclean1 (FailedRename o n)).
      apply elem_of_app; right. right; by left. }
  destruct IH as [Hin1 Hnot]; [|intros o' n' ?; apply Hplan; by right|done..|].
  { rewrite Hd1. by apply no_hard_links_rename. }
  rewrite Hd1 in Hin1.
  destruct (decide (name = n)) as [->|Hnn].
  { rewrite Hn in Hm. by destruct Hm. }
  rewrite lookup_insert_ne in Hin1 by done.
  destruct (decide (name = o)) as [->|Hno].
  { rewrite lookup_delete_eq in Hin1. by destruct Hin1. }
  rewrite lookup_delete_ne in Hin1 by done. split; [done|].
  intros [?|?]%elem_of_cons; done.
Qed.

(** The whole function: either nothing matches, or the plan of the
    matching files is run between the banner lines. *)
Lemma rename_files_spec dry_run files w :
  (matching_files files = []
   ∧ rename_files_with_deduplication follows denied dry_run files w
     = Ok (print NoFilesFound w))
  ∨ (matching_files files ≠ []
     ∧ ∃ w',
         steps follows denied dry_run
           (print (Starting dry_run)
              (print (FoundFiles (length (matching_files files))) w))
           (plan_of (matching_files files)) w'
         ∧ rename_files_with_deduplication follows denied dry_run files w
           = Ok (print
                   (Completed dry_run (length (plan_of (matching_files files))))
                   w')).
Proof.
  unfold rename_files_with_deduplication.
  destruct (matching_files files) as [|f l] eqn:Hmf; [by left|].
  right. split; [done|]. rewrite <- Hmf.
  rewrite rename_plan_pure by apply matching_files_all_match. simpl.
  unfold print_all. rewrite app_nil_r.
  match goal with |- context [execute follows denied dry_run ?p ?w0] =>
    destruct (execute_steps dry_run p w0) as (w' & -> & Hs) end.
  exists w'. split; [|done]. exact Hs.
Qed.


(** Every call comes from a pair of the plan. *)
Lemma steps_calls_in_plan dry_run w plan w' o n b :
  steps follows denied dry_run w plan w' →
  (o, n, b) ∈ calls w' → (o, n, b) ∈ calls w ∨ (o, n) ∈ plan.
Proof.
  induction 1 as [w|w o1 n1 w1 plan w' Hs Hss IH]; [by left|].
  intros [Hin|Hin]%IH; [|right; by right].
  destruct Hs; simpl in *; try by left.
  all: apply elem_of_app in Hin as [?|Hin]; [by left|].
  all: apply list_elem_of_singleton in Hin as [= -> -> ->]; right; by left.
Qed.


End ExecFacts.

Section TemplateFacts.

Lemma exact_inv lit s r : exact lit s = Some r → s = lit +:+ r.
Proof.
  revert s; induction lit as [|p lit IH]; intros s H; simpl in H.
  - by simplify_eq.
  - destruct s as [|c s]; [done|].
    destruct (Ascii.eqb_spec c p) as [->|]; [|done].
    by rewrite (IH _ H).
Qed.

Lemma string_forall_app p a b :
  string_forall p (a +:+ b) = string_forall p a && string_forall p b.
Proof.
  induction a as [|c a IH]; [done|].
  rewrite append_cons. simpl. by rewrite IH, andb_assoc.
Qed.

Lemma string_forall_digit_dot t :
  string_forall is_digit t = true → string_forall is_digit_or_dot t = true.
Proof.
  induction t as [|c t IH]; simpl; [done|].
  intros [Hc Ht]%andb_prop. unfold is_digit_or_dot at 1.
  by rewrite Hc, IH.
Qed.

Lemma decimal_inv s r :
  decimal s = Some r →
  ∃ t, s = t +:+ r ∧ t ≠ "" ∧ string_forall is_digit_or_dot t = true.
Proof.
  unfold decimal. destruct (span is_digit s) as [whole r1] eqn:Hw.
  apply span_inv in Hw as (-> & Hwhole & _).
  destruct whole as [|c0 whole]; [done|].
  destruct r1 as [|c r1].
  - intros [= <-]. exists (String c0 whole). split_and!; try done.
    by apply string_forall_digit_dot.
  - destruct (Ascii.eqb_spec c ".") as [->|_].
    + destruct (span is_digit r1) as [frac r2] eqn:Hf.
      apply span_inv in Hf as (-> & Hfrac & _).
      destruct frac as [|c1 frac]; [done|]. intros [= <-].
      exists (String c0 whole +:+ "." +:+ String c1 frac).
      split_and!; [by rewrite !append_assoc | done |].
      rewrite !string_forall_app.
      rewrite (string_forall_digit_dot _ Hwhole).
      by rewrite (string_forall_digit_dot _ Hfrac).
    + intros [= <-]. exists (String c0 whole). split_and!; try done.
      by apply string_forall_digit_dot.
Qed.

Ltac invert_template H :=
  let E := fresh "E" in
  first
    [ apply bind_Some in H as ([? ?] & E & H)
    | apply bind_Some in H as (? & E & H) ];
  cbv beta iota in H;
  lazymatch type of E with
  | digits _ _ = _ => apply digits_inv in E as [-> ?]
  | literal _ _ = _ => apply literal_inv in E as [-> ?]
  | exact _ _ = _ => apply exact_inv in E as ->
  | decimal _ = _ => apply decimal_inv in E as (? & -> & ? & ?)
  end.

(** Whatever the template admits, the pattern admits. *)
Lemma conforms_template_match s :
  conforms_template s = true → is_Some (PATTERN_match s).
Proof.
  unfold conforms_template.
  match goal with |- context [match ?x with _ => _ end] =>
    destruct x as [[|? ?]|] eqn:H end; try done.
  intros _. do 15 invert_template H. injection H as ->.
  unfold PATTERN_match.
  repeat first
    [ rewrite digits_intro by done
    | rewrite (literal_intro "-" "-") by done
    | rewrite (literal_intro "_photo_" "_photo_") by done
    | rewrite (literal_intro "_MB" "_MB") by done
    | rewrite (literal_intro ".jpg") by done
    | rewrite size_field_intro by first [done | exact eq_refl]
    | rewrite option_bind_Some; cbv beta iota ].
  by eexists.
Qed.

End TemplateFacts.

(** ** The scenarios of the specification, run *)

Example match_burst_a : PATTERN_match burst_a = Some (burst_groups ".jpg").
Proof. reflexivity. Qed.

Example match_any_case :
  PATTERN_match "2022-01-14-14-33-00_Photo_1.2.3_mB.JpG"
  = Some (burst_groups ".JpG").
Proof. reflexivity. Qed.

Example match_before_final_newline :
  PATTERN_match (burst_a +:+ String "010" "") = Some (burst_groups ".jpg").
Proof. reflexivity. Qed.

Example no_match_unrelated : PATTERN_match "vacation.jpg" = None.
Proof. reflexivity. Qed.

Example no_match_leading_text : PATTERN_match ("x" +:+ burst_a) = None.
Proof. reflexivity. Qed.

Example no_match_already_renamed :
  PATTERN_match "20220114_143300_photo_1.jpg" = None.
Proof. reflexivity. Qed.

Example counter_in_decimal : str_of_nat 12 = "12".
Proof. reflexivity. Qed.

Example sort_by_code_point : list_sort [burst_b; burst_a] = [burst_a; burst_b].
Proof. by vm_compute. Qed.

Example plan_of_scenario :
  rename_plan (matching_files scenario_files) = Ok (scenario_plan, []).
Proof. by vm_compute. Qed.

Example preview_of_scenario :
  stdout (world_of (main follow_here no_denial ["rename.py"] scenario_files
                      (World scenario_dir [] [])))
  = [FoundFiles 3; Starting true;
     Renaming burst_a "20220114_143300_photo_1.jpg";
     Renaming burst_b "20220114_143300_photo_2.JPG";
     Renaming single "20230501_090000_photo.jpg";
     Completed true 3].
Proof. by vm_compute. Qed.

(** A link to a matching file dangles once that file is renamed.  The
    preview reports a conflict for [single]; the apply run renames [burst_a]
    first and then [single] over the link; with [single] listed first the
    link still leads somewhere when it is checked, and is kept. *)
Example link_dangles_during_run :
  stdout (linked_run true [burst_a; single; "20230501_090000_photo.jpg"])
  = [FoundFiles 2; Starting true;
     Renaming burst_a "20220114_143300_photo.jpg";
     Conflict "20230501_090000_photo.jpg" single;
     Completed true 2]
  ∧ calls (linked_run false [burst_a; single; "20230501_090000_photo.jpg"])
    = [(burst_a, "20220114_143300_photo.jpg", true);
       (single, "20230501_090000_photo.jpg", true)]
  ∧ dir (linked_run false [burst_a; single; "20230501_090000_photo.jpg"])
      !! "20230501_090000_photo.jpg" = Some (File 2)
  ∧ calls (linked_run false [single; burst_a; "20230501_090000_photo.jpg"])
    = [(burst_a, "20220114_143300_photo.jpg", true)]
  ∧ dir (linked_run false [single; burst_a; "20230501_090000_photo.jpg"])
      !! "20230501_090000_photo.jpg" = Some (Symlink 3 burst_a).
Proof. by vm_compute. Qed.

(** Between two hard links to one file [os.rename] succeeds and does
    nothing: the run reports a rename, the directory is as it was, and the
    next run renames again. *)
Example hard_links_are_renamed_again :
  stdout hard_link_after_first
  = [FoundFiles 1; Starting false;
     Renaming single "20230501_090000_photo.jpg";
     Completed false 1]
  ∧ dir hard_link_after_first = hard_link_dir
  ∧ calls hard_link_after_first
    = [(single, "20230501_090000_photo.jpg", true)]
  ∧ calls hard_link_after_second
    = [(single, "20230501_090000_photo.jpg", true);
       (single, "20230501_090000_photo.jpg", true)].
Proof. by vm_compute. Qed.

Example conflict_keeps_source :
  stdout taken_after_first
  = [FoundFiles 2; Starting false;
     Conflict "20220114_143300_photo_1.jpg" burst_a;
     Renaming burst_b "20220114_143300_photo_2.JPG";
     Completed false 2]
  ∧ dir taken_after_first !! burst_a = Some (File 1)
  ∧ dir taken_after_first !! "20220114_143300_photo_1.jpg" = Some (File 3).
Proof. by vm_compute. Qed.

(** * The claims *)

(** C6 (as worded, refuted).  The pattern accepts a name the template of
    the specification rejects: [re.IGNORECASE] covers the whole pattern, so
    [_PHOTO_] and [_mb] match as well. *)
Lemma pattern_wider_than_template :
  is_Some (PATTERN_match "2022-01-14-14-33-00_PHOTO_12.683_mb.jpg")
  ∧ conforms_template "2022-01-14-14-33-00_PHOTO_12.683_mb.jpg" = false.
Proof. split; [by eexists | reflexivity]. Qed.

(** C9 (as worded, refuted).  [EXECUTE] is not the literal token
    [execute], yet it selects apply mode: the argument is lower-cased before
    the comparison. *)
Lemma uppercase_token_selects_apply :
  ¬ (is_dry_run ["rename.py"; "EXECUTE"] = false
     ↔ ["rename.py"; "EXECUTE"] !! 1 = Some "execute").
Proof. intros [H _]. by specialize (H eq_refl). Qed.

(** C6 (amended).  For entry names over the code points below 256, where
    the digits of [\d] are [0-9] and no others: an entry is selected exactly
    when it has the shape of the pattern, every literal part read
    case-insensitively, the size any non-empty run of digits and dots, and at
    most one newline after the extension; the template of the specification
    is one way to have that shape.  Only selected entries reach the plan and
    the [os.rename] calls.  (The pattern is a [str] pattern compiled without
    [re.ASCII]: beyond code point 255 its [\d] also matches the other Unicode
    decimal digits; names with such characters are not names of this
    development, and the statement says nothing about them.) *)
Theorem selected_iff_pattern_shape (files : list string) :
  (∀ f, f ∈ matching_files files ↔ f ∈ files ∧ ∃ g, pattern_shape f g)
  ∧ (∀ f, conforms_template f = true → ∃ g, pattern_shape f g)
  ∧ (∃ plan, rename_plan (matching_files files) = Ok (plan, [])
       ∧ ∀ o n, (o, n) ∈ plan → o ∈ files ∧ ∃ g, pattern_shape o g)
  ∧ (∀ follows denied dry_run w, ∃ w',
       rename_files_with_deduplication follows denied dry_run files w = Ok w'
       ∧ ∀ o n b, (o, n, b) ∈ calls w' →
           (o, n, b) ∈ calls w ∨ (o ∈ files ∧ ∃ g, pattern_shape o g)).
Proof.
  assert (∀ o n, (o, n) ∈ plan_of (matching_files files) →
            o ∈ files ∧ ∃ g, pattern_shape o g) as Hplan.
  { intros o n (m & _ & [_ Ho]%elem_of_matching_files & Hm & _)%plan_of_elem.
    split; [done|]. exists m. by apply PATTERN_match_shape. }
  split_and!.
  - intros f. rewrite elem_of_matching_files. split.
    + intros [[g Hg] ?]. split; [done|]. exists g. by apply PATTERN_match_shape.
    + intros [? [g Hg]]. split; [|done]. exists g. by apply shape_PATTERN_match.
  - intros f [g Hg]%conforms_template_match. exists g.
    by apply PATTERN_match_shape.
  - exists (plan_of (matching_files files)). split; [|done].
    apply rename_plan_pure, matching_files_all_match.
  - intros follows denied dry_run w.
    destruct (rename_files_spec follows denied dry_run files w)
      as [[_ ->]|[_ (w' & Hs & ->)]].
    + eexists; split; [done|]. intros o n b ?. by left.
    + eexists; split; [done|]. simpl. intros o n b Hin.
      destruct (steps_calls_in_plan _ _ _ _ _ _ o n b Hs Hin) as [?|?];
        [by left|].
      right. by eapply Hplan.
Qed.

(** C9 (amended).  The program runs in apply mode exactly when a first
    argument is present and its lower-cased form is [execute]; with no
    argument it runs in preview mode. *)
Theorem apply_mode_iff_lowercased_token (argv : list string) :
  is_dry_run argv = false
  ↔ ∃ arg, argv !! 1 = Some arg ∧ lower arg = "execute".
Proof.
  unfold is_dry_run. destruct argv as [|prog [|arg rest]]; simpl.
  - split; [done | intros (? & ? & _); done].
  - split; [done | intros (? & ? & _); done].
  - destruct (String.eqb_spec (lower arg) "execute") as [He|Hne]; simpl.
    + split; [|done]. intros _. by exists arg.
    + split; [done|]. intros (? & [= <-] & ?). done.
Qed.

(** C3.  A preview run performs no [os.rename] call and returns the
    directory it was given, so every listing of the directory before the
    run is a listing of it after the run. *)
Theorem preview_never_mutates (follows : gmap string entry → string → bool)
    (denied : string → string → bool)
    (files : list string) (w : world) :
  ∃ w', rename_files_with_deduplication follows denied true files w = Ok w'
    ∧ calls w' = calls w
    ∧ dir w' = dir w
    ∧ ∀ l, is_listing (dir w) l ↔ is_listing (dir w') l.
Proof.
  destruct (rename_files_spec follows denied true files w)
    as [[_ ->]|[_ (w' & Hs & ->)]].
  - eexists; split_and!; done.
  - apply steps_preview in Hs as [Hd Hc]. simpl in *.
    eexists; split_and!; [done..|]. simpl. by rewrite Hd.
Qed.

(** C10 (as worded, refuted).  With the rename of [burst_a] refused, its
    planned pair is neither renamed nor reported as a conflict: the run
    prints the renaming line and a failure line for it, the file stays under
    its name and nothing appears under the planned name. *)
Lemma planned_pair_neither_renamed_nor_conflict :
  rename_plan (matching_files scenario_files) = Ok (scenario_plan, [])
  ∧ (burst_a, "20220114_143300_photo_1.jpg") ∈ scenario_plan
  ∧ rename_files_with_deduplication follow_here deny_burst_a false
      scenario_files (World scenario_dir [] []) = Ok refused_after
  ∧ stdout refused_after
    = [FoundFiles 3; Starting false;
       Renaming burst_a "20220114_143300_photo_1.jpg";
       FailedRename burst_a "20220114_143300_photo_1.jpg";
       Renaming burst_b "20220114_143300_photo_2.JPG";
       Renaming single "20230501_090000_photo.jpg";
       Completed false 3]
  ∧ calls refused_after
    = [(burst_a, "20220114_143300_photo_1.jpg", false);
       (burst_b, "20220114_143300_photo_2.JPG", true);
       (single, "20230501_090000_photo.jpg", true)]
  ∧ dir refused_after !! burst_a = Some (File 4)
  ∧ dir refused_after !! "20220114_143300_photo_1.jpg" = None.
Proof.
  split_and!; [by vm_compute | repeat constructor | vm_compute; reflexivity
              | by vm_compute..].
Qed.

(** C10 (amended).  A planned new name is never the original name: the
    original has a dash after the year where the new name has the first
    digit of the month.  So the loop never takes the [original == new]
    branch for a planned pair, and what it does with the pair is this: when
    [os.path.exists] sees the new name, it prints the conflict line and
    changes nothing; otherwise it prints the renaming line and, in preview
    mode, changes nothing, while in apply mode it calls [os.rename] once and
    either takes the directory the call leaves or, when the call raises,
    prints the failure line and keeps the directory. *)
Theorem planned_name_differs (files : list string)
    (plan : list (string * string)) (out : list line) (o n : string) :
  rename_plan (matching_files files) = Ok (plan, out) →
  (o, n) ∈ plan →
  n ≠ o
  ∧ ∀ follows denied dry_run w,
      execute_step follows denied dry_run w (o, n)
      = Ok (if path_exists follows (dir w) n then print (Conflict n o) w
            else if dry_run then print (Renaming o n) w
            else match os_rename denied o n (dir w) with
                 | Ok d' =>
                     World d' (stdout w ++ [Renaming o n])
                       (calls w ++ [(o, n, true)])
                 | Raise _ =>
                     World (dir w)
                       (stdout w ++ [Renaming o n; FailedRename o n])
                       (calls w ++ [(o, n, false)])
                 end).
Proof.
  rewrite rename_plan_pure by apply matching_files_all_match.
  intros [= <- <-] (m & sfx & _ & Hm & ->)%plan_of_elem.
  pose proof (new_name_differs o m sfx Hm) as Hne. split; [done|].
  intros follows denied dry_run w. unfold execute_step.
  destruct (String.eqb_spec o (new_base_name m +:+ sfx +:+ extension m))
    as [?|_]; [done|].
  destruct (path_exists follows (dir w) _); simpl.
  { by destruct (String.eqb_spec (new_base_name m +:+ sfx +:+ extension m) o). }
  destruct dry_run; [done|].
  destruct (os_rename denied o _ (dir w)) as [d'|e] eqn:Hr; [done|].
  apply os_rename_Raise in Hr as ->. unfold print. simpl.
  by rewrite <- app_assoc.
Qed.


(** C1.  For a listing that names every entry once, planning succeeds and
    maps each matching file as follows.  The base key is
    [YYYYMMDD_HHMMSS_photo] built from the captured fields; take the group of
    all listed files with that base key in ascending order: a group of one
    maps its member to [<base-key><extension>]; a larger group maps its
    [i]-th member, counting from 1, to [<base-key>_<i><extension>], the
    extension being the one captured from that member's own name. *)
Theorem plan_names_by_group (files : list string) :
  NoDup files →
  ∃ plan, rename_plan (matching_files files) = Ok (plan, [])
    ∧ ∀ f m, f ∈ files → PATTERN_match f = Some m →
        new_base_name m
          = year m +:+ month m +:+ day m +:+ "_" +:+
            hour m +:+ minute m +:+ second m +:+ "_photo"
        ∧ ∀ group, StronglySorted str_le group →
            group ≡ₚ same_key (new_base_name m) files →
            (length group = 1 →
               Dict.get f plan = Some (new_base_name m +:+ extension m))
            ∧ (1 < length group →
               ∀ i o mo, group !! i = Some o → PATTERN_match o = Some mo →
                 Dict.get o plan
                 = Some (new_base_name m +:+ "_" +:+ str_of_nat (S i)
                           +:+ extension mo)).
Proof.
  intros Hnd. exists (plan_of (matching_files files)).
  split; [apply rename_plan_pure, matching_files_all_match|].
  intros f m Hf Hm. split; [done|]. intros group Hsorted Hperm.
  assert (NoDup (matching_files files)) as Hndm by by apply NoDup_filter.
  assert (group = list_sort (same_key (new_base_name m) (matching_files files)))
    as Hgroup.
  { rewrite same_key_matching. by apply list_sort_unique. }
  assert (∀ i o, group !! i = Some o → key_of o = Some (new_base_name m))
    as Hkey.
  { intros i o Hi. assert (o ∈ group) as Ho by (apply list_elem_of_lookup; eauto).
    rewrite Hperm in Ho. by apply elem_of_same_key in Ho as [? _]. }
  split.
  - intros Hlen.
    assert (f ∈ group) as [i Hi]%list_elem_of_lookup.
    { rewrite Hperm. apply elem_of_same_key. split; [|done].
      apply key_of_Some. eauto. }
    pose proof (Hkey i f Hi) as Hk. rewrite Hgroup in Hi.
    rewrite (plan_of_get _ _ i f Hndm Hk Hi).
    unfold new_name_at. rewrite <- Hgroup, Hlen. simpl.
    by rewrite (ext_of_match f m).
  - intros Hlen i o mo Hi Hmo.
    pose proof (Hkey i o Hi) as Hk. rewrite Hgroup in Hi.
    rewrite (plan_of_get _ _ i o Hndm Hk Hi).
    unfold new_name_at, numbered_name. rewrite <- Hgroup. simpl.
    destruct (Nat.eqb_spec (length group) 1) as [?|_]; [lia|].
    by rewrite (ext_of_match o mo).
Qed.

(** C5.  Two listings, each naming its entries once, with the same matching
    file names in whatever order, yield plans that map every name alike. *)
Theorem plan_independent_of_listing_order (files1 files2 : list string) :
  NoDup files1 → NoDup files2 →
  (∀ f, f ∈ matching_files files1 ↔ f ∈ matching_files files2) →
  ∃ plan1 plan2,
    rename_plan (matching_files files1) = Ok (plan1, [])
    ∧ rename_plan (matching_files files2) = Ok (plan2, [])
    ∧ ∀ f, Dict.get f plan1 = Dict.get f plan2.
Proof.
  intros Hnd1 Hnd2 Hsame.
  exists (plan_of (matching_files files1)), (plan_of (matching_files files2)).
  split_and!; [apply rename_plan_pure, matching_files_all_match..|].
  assert (NoDup (matching_files files1)) as Hm1 by by apply NoDup_filter.
  assert (NoDup (matching_files files2)) as Hm2 by by apply NoDup_filter.
  assert (matching_files files1 ≡ₚ matching_files files2) as Hperm
    by by apply NoDup_Permutation.
  intros f. destruct (decide (f ∈ matching_files files1)) as [Hin|Hnin].
  - apply elem_of_matching_files in Hin as Hf. destruct Hf as [[m Hm] _].
    set (k := new_base_name m).
    assert (key_of f = Some k) as Hk by (apply key_of_Some; eauto).
    assert (list_sort (same_key k (matching_files files1))
            = list_sort (same_key k (matching_files files2))) as Hsort.
    { apply list_sort_unique; [apply list_sort_sorted|].
      rewrite list_sort_perm. unfold same_key. by rewrite Hperm. }
    assert (f ∈ list_sort (same_key k (matching_files files1)))
      as [j Hj]%list_elem_of_lookup.
    { rewrite elem_of_list_sort. by apply elem_of_same_key. }
    rewrite (plan_of_get _ k j f Hm1 Hk Hj).
    rewrite Hsort in Hj. rewrite (plan_of_get _ k j f Hm2 Hk Hj).
    by rewrite Hsort.
  - assert (∀ files, f ∉ matching_files files →
              Dict.get f (plan_of (matching_files files)) = None) as Hnone.
    { intros files Hn. apply get_None_keys. rewrite plan_of_keys. tauto. }
    rewrite !Hnone; [done | by rewrite <- Hsame | done].
Qed.

Lemma length_S_inv s n :
  String.length s = S n → ∃ c s', s = String c s' ∧ String.length s' = n.
Proof. destruct s as [|c s']; [done|]. intros [= ?]. eauto. Qed.

Lemma length_0_inv s : String.length s = 0 → s = "".
Proof. by destruct s. Qed.

Ltac explode_strings :=
  repeat match goal with
  | H : String.length ?s = S _ |- _ =>
      apply length_S_inv in H as (? & ? & -> & H)
  | H : String.length ?s = 0 |- _ => apply length_0_inv in H as ->
  | H : is_digits _ _ |- _ => destruct H as [H _]
  end.

Lemma base_key_of_stamp stamp rest m :
  String.length stamp = 19 → PATTERN_match (stamp +:+ rest) = Some m →
  new_base_name m = stamp_key stamp.
Proof.
  intros Hl Hm.
  apply PATTERN_match_shape in Hm
    as (photo & size & mb & nl & He & Hy & Hmo & Hd & Hh & Hmi & Hse & _).
  destruct m as [y mo d h mi se ext]; simpl in *.
  explode_strings.
  rewrite !append_cons, ?append_nil_l in He.
  by simplify_eq.
Qed.

(** C7.  The base key of a matching name is read off its first nineteen
    characters, the time stamp: two matching names with the same stamp have
    the same base key, whatever size and extension follow.  In the plan each
    file keeps the extension as it is spelled in its own name. *)
Theorem base_key_from_timestamp_only :
  (∀ stamp rest1 rest2 m1 m2,
     String.length stamp = 19 →
     PATTERN_match (stamp +:+ rest1) = Some m1 →
     PATTERN_match (stamp +:+ rest2) = Some m2 →
     new_base_name m1 = stamp_key stamp
     ∧ new_base_name m1 = new_base_name m2)
  ∧ (∀ files plan out o n,
       rename_plan (matching_files files) = Ok (plan, out) →
       (o, n) ∈ plan →
       ∃ m sfx body nl,
         PATTERN_match o = Some m
         ∧ o = body +:+ extension m +:+ nl
         ∧ n = new_base_name m +:+ sfx +:+ extension m).
Proof.
  split.
  - intros stamp rest1 rest2 m1 m2 Hl H1 H2.
    rewrite (base_key_of_stamp _ _ _ Hl H1), (base_key_of_stamp _ _ _ Hl H2).
    done.
  - intros files plan out o n.
    rewrite rename_plan_pure by apply matching_files_all_match.
    intros [= <- <-] (m & sfx & _ & Hm & ->)%plan_of_elem.
    apply PATTERN_match_shape in Hm as Hs.
    destruct Hs as (photo & size & mb & nl & -> & _).
    exists m, sfx,
      (year m +:+ "-" +:+ month m +:+ "-" +:+ day m +:+ "-" +:+
       hour m +:+ "-" +:+ minute m +:+ "-" +:+ second m +:+
       photo +:+ size +:+ mb), nl.
    split_and!; [done | | done]. by rewrite !append_assoc.
Qed.

(** C2 (the code at the failing input).  The planned name of [single] is
    taken by a dangling symbolic link.  [os.path.exists] answers [False] for
    it, the rename goes ahead, and the link, which is not the source of the
    rename, is replaced by the photo. *)
Theorem dangling_link_is_overwritten :
  is_listing dangling_dir [single; "20230501_090000_photo.jpg"]
  ∧ dangling_dir !! "20230501_090000_photo.jpg" = Some (Symlink 2 "gone.jpg")
  ∧ ∃ w', main follow_here no_denial ["rename.py"; "execute"]
            [single; "20230501_090000_photo.jpg"] (World dangling_dir [] [])
          = Ok w'
      ∧ calls w' = [(single, "20230501_090000_photo.jpg", true)]
      ∧ dir w' !! "20230501_090000_photo.jpg" = Some (File 1)
      ∧ stdout w' = [LiveModeActivated; FoundFiles 1; Starting false;
                     Renaming single "20230501_090000_photo.jpg";
                     Completed false 1].
Proof.
  split_and!; [split; compute_done | by vm_compute |].
  eexists. split; [vm_compute; reflexivity|]. by vm_compute.
Qed.

(** C4 (as worded, refuted).  In [taken_dir] the first apply run meets a
    conflict for [burst_a] and renames [burst_b]; nothing is added or
    removed; the second run finds [burst_a] alone in its second, plans the
    name without a counter for it, and renames it. *)
Lemma second_run_renames_again :
  is_listing taken_dir [burst_a; burst_b; "20220114_143300_photo_1.jpg"]
  ∧ rename_files_with_deduplication follow_here no_denial false
      [burst_a; burst_b; "20220114_143300_photo_1.jpg"] (World taken_dir [] [])
    = Ok taken_after_first
  ∧ is_listing (dir taken_after_first)
      [burst_a; "20220114_143300_photo_1.jpg"; "20220114_143300_photo_2.JPG"]
  ∧ rename_files_with_deduplication follow_here no_denial false
      [burst_a; "20220114_143300_photo_1.jpg"; "20220114_143300_photo_2.JPG"]
      taken_after_first
    = Ok taken_after_second
  ∧ calls taken_after_first = [(burst_b, "20220114_143300_photo_2.JPG", true)]
  ∧ calls taken_after_second
    = calls taken_after_first
      ++ [(burst_a, "20220114_143300_photo.jpg", true)].
Proof.
  split_and!; [split; compute_done | vm_compute; reflexivity
              | split; compute_done | vm_compute; reflexivity
              | by vm_compute | by vm_compute].
Qed.

Lemma no_hard_links_NoDup (d : gmap string entry) :
  NoDup (map_to_list d).*2 → no_hard_links d.
Proof.
  intros Hnd a b e Ha%elem_of_map_to_list Hb%elem_of_map_to_list.
  apply list_elem_of_lookup in Ha as [i Hi], Hb as [j Hj].
  assert (i = j) as ->.
  { apply (NoDup_lookup _ i j e Hnd); by rewrite list_lookup_fmap, ?Hi, ?Hj. }
  congruence.
Qed.

Lemma is_listing_elem d files f :
  is_listing d files → f ∈ files ↔ is_Some (d !! f).
Proof.
  intros [_ Hl]. by rewrite <- elem_of_dom, <- Hl, elem_of_list_to_set.
Qed.

Lemma matching_files_nil files :
  (∀ f, f ∈ files → PATTERN_match f = None) → matching_files files = [].
Proof.
  intros H. destruct (matching_files files) as [|f l] eqn:Hm; [done|].
  assert (f ∈ matching_files files) as Hf by (rewrite Hm; by left).
  apply elem_of_matching_files in Hf as [[m Hf] Hin].
  by rewrite (H f Hin) in Hf.
Qed.

(** C4 (amended).  If the directory holds no two hard links to one file and
    the first apply run reports no conflict and no failed rename, then no
    entry of the directory matches the pattern afterwards, and a second
    apply run over any listing of it makes no [os.rename] call and leaves
    the directory as it is.  Between two hard links [os.rename] succeeds and
    does nothing, and the second run renames again:
    [hard_links_are_renamed_again]. *)
Theorem second_apply_run_after_clean_run
    (follows : gmap string entry → string → bool)
    (denied : string → string → bool)
    (files1 files2 : list string) (w w1 w2 : world) :
  no_hard_links (dir w) →
  is_listing (dir w) files1 →
  rename_files_with_deduplication follows denied false files1 w = Ok w1 →
  Forall clean (stdout w1) →
  is_listing (dir w1) files2 →
  rename_files_with_deduplication follows denied false files2 w1 = Ok w2 →
  matching_files files2 = [] ∧ calls w2 = calls w1 ∧ dir w2 = dir w1.
Proof.
  intros Hnh Hl1 Hrun1 Hclean Hl2 Hrun2.
  assert (matching_files files2 = []) as Hnil.
  { apply matching_files_nil. intros f Hf.
    apply (is_listing_elem _ _ _ Hl2) in Hf.
    destruct (PATTERN_match f) as [m|] eqn:Hm; [exfalso|done].
    assert (f ∈ files1 → f ∈ matching_files files1) as Hmatch.
    { intros ?. apply elem_of_matching_files. split; [by eexists | done]. }
    destruct (rename_files_spec follows denied false files1 w)
      as [[Hno Hw1]|[_ (w' & Hs & Hw1)]];
      rewrite Hw1 in Hrun1; injection Hrun1 as <-; simpl in *.
    - apply (is_listing_elem _ _ _ Hl1), Hmatch in Hf.
      rewrite Hno in Hf. by apply elem_of_nil in Hf.
    - apply Forall_app in Hclean as [Hclean _].
      destruct (steps_clean_leaves follows denied _ _ _ f Hs) as [Hin Hnot];
        [done| |done..|by eexists|].
      + intros o n (m' & sfx & _ & Hm' & ->)%plan_of_elem.
        split; [by eexists|].
        apply PATTERN_match_shape in Hm' as (_ & _ & _ & _ & _ & ? & ? & _).
        by apply new_name_no_match.
      + simpl in Hin. apply (is_listing_elem _ _ _ Hl1), Hmatch in Hin.
        apply Hnot. apply plan_of_keys. split; [done | by eexists]. }
  split; [done|].
  destruct (rename_files_spec follows denied false files2 w1)
    as [[_ Hw2]|[Hne _]]; [|done].
  rewrite Hw2 in Hrun2. by injection Hrun2 as <-.
Qed.

(** ** The theorems at concrete directories *)

Lemma selected_iff_pattern_shape_witness :
  single ∈ scenario_files ∧ single ∈ matching_files scenario_files.
Proof.
  assert (single ∈ scenario_files) as Hin by repeat constructor.
  split; [exact Hin|].
  apply (proj1 (selected_iff_pattern_shape scenario_files)).
  split; [exact Hin|].
  exists (Groups "2023" "05" "01" "09" "00" "00" ".jpg").
  by apply PATTERN_match_shape.
Defined.

Lemma plan_names_by_group_witness :
  NoDup scenario_files
  ∧ ∃ plan, rename_plan (matching_files scenario_files) = Ok (plan, [])
      ∧ Dict.get single plan = Some "20230501_090000_photo.jpg"
      ∧ Dict.get burst_a plan = Some "20220114_143300_photo_1.jpg"
      ∧ Dict.get burst_b plan = Some "20220114_143300_photo_2.JPG".
Proof.
  assert (NoDup scenario_files) as Hnd by compute_done.
  split; [exact Hnd|].
  destruct (plan_names_by_group scenario_files Hnd) as (plan & Hplan & Hspec).
  exists plan. split; [exact Hplan|]. split_and!.
  - destruct (Hspec single (Groups "2023" "05" "01" "09" "00" "00" ".jpg"))
      as [_ Hgroup]; [repeat constructor | reflexivity |].
    destruct (Hgroup [single]) as [Hone _];
      [repeat constructor | by vm_compute |].
    exact (Hone eq_refl).
  - destruct (Hspec burst_a (burst_groups ".jpg")) as [_ Hgroup];
      [repeat constructor | reflexivity |].
    destruct (Hgroup [burst_a; burst_b]) as [_ Hmany];
      [repeat constructor; reflexivity | vm_compute; constructor |].
    exact (Hmany ltac:(simpl; lia) 0 burst_a (burst_groups ".jpg")
             eq_refl eq_refl).
  - destruct (Hspec burst_a (burst_groups ".jpg")) as [_ Hgroup];
      [repeat constructor | reflexivity |].
    destruct (Hgroup [burst_a; burst_b]) as [_ Hmany];
      [repeat constructor; reflexivity | vm_compute; constructor |].
    exact (Hmany ltac:(simpl; lia) 1 burst_b (burst_groups ".JPG")
             eq_refl eq_refl).
Defined.

Lemma plan_independent_of_listing_order_witness :
  NoDup scenario_files
  ∧ NoDup [burst_a; single; "notes.txt"; burst_b]
  ∧ ∃ plan1 plan2,
      rename_plan (matching_files scenario_files) = Ok (plan1, [])
      ∧ rename_plan (matching_files [burst_a; single; "notes.txt"; burst_b])
        = Ok (plan2, [])
      ∧ ∀ f, Dict.get f plan1 = Dict.get f plan2.
Proof.
  assert (NoDup scenario_files) as H1 by compute_done.
  assert (NoDup [burst_a; single; "notes.txt"; burst_b]) as H2 by compute_done.
  split_and!; [exact H1 | exact H2 |].
  apply (plan_independent_of_listing_order _ _ H1 H2).
  intros f.
  assert (matching_files scenario_files = [burst_b; single; burst_a]) as ->
    by by vm_compute.
  assert (matching_files [burst_a; single; "notes.txt"; burst_b]
          = [burst_a; single; burst_b]) as -> by by vm_compute.
  rewrite !elem_of_cons, !elem_of_nil. tauto.
Defined.

Lemma base_key_from_timestamp_only_witness :
  new_base_name (burst_groups ".jpg") = new_base_name (burst_groups ".JPG")
  ∧ ∃ m sfx body nl,
      PATTERN_match burst_b = Some m
      ∧ burst_b = body +:+ extension m +:+ nl
      ∧ "20220114_143300_photo_2.JPG"
        = new_base_name m +:+ sfx +:+ extension m.
Proof.
  destruct base_key_from_timestamp_only as [Hkey Hext]. split.
  - exact (proj2 (Hkey "2022-01-14-14-33-00" "_photo_12.683_MB.jpg"
                    "_photo_9.1_MB.JPG" (burst_groups ".jpg")
                    (burst_groups ".JPG") eq_refl eq_refl eq_refl)).
  - apply (Hext scenario_files scenario_plan []);
      [vm_compute; reflexivity | repeat constructor].
Defined.

Lemma planned_name_differs_witness :
  "20220114_143300_photo_1.jpg" ≠ burst_a
  ∧ execute_step follow_here deny_burst_a false (World scenario_dir [] [])
      (burst_a, "20220114_143300_photo_1.jpg")
    = Ok (World scenario_dir
            [Renaming burst_a "20220114_143300_photo_1.jpg";
             FailedRename burst_a "20220114_143300_photo_1.jpg"]
            [(burst_a, "20220114_143300_photo_1.jpg", false)]).
Proof.
  destruct (planned_name_differs scenario_files scenario_plan []
              burst_a "20220114_143300_photo_1.jpg") as [Hne Hstep];
    [vm_compute; reflexivity | repeat constructor |].
  split; [exact Hne|]. rewrite Hstep. vm_compute. reflexivity.
Defined.


Lemma second_apply_run_after_clean_run_witness :
  matching_files scenario_relisted = []
  ∧ calls scenario_after_second = calls scenario_after_first
  ∧ dir scenario_after_second = dir scenario_after_first.
Proof.
  apply (second_apply_run_after_clean_run follow_here no_denial
           scenario_files scenario_relisted (World scenario_dir [] [])).
  - apply no_hard_links_NoDup. compute_done.
  - split; compute_done.
  - vm_compute; reflexivity.
  - vm_compute. repeat constructor.
  - split; compute_done.
  - vm_compute; reflexivity.
Defined.

(** * Further properties of the planner *)

Section NameFacts.

Lemma string_of_uint_digits d :
  string_forall is_digit (NilEmpty.string_of_uint d) = true.
Proof. induction d; simpl; done. Qed.

Lemma str_of_nat_digits i : string_forall is_digit (str_of_nat i) = true.
Proof.
  unfold str_of_nat, NilZero.string_of_uint.
  destruct (Nat.to_uint i); try apply (string_of_uint_digits (_ _)); done.
Qed.

Lemma to_uint_nonnil i : Nat.to_uint i ≠ Decimal.Nil.
Proof.
  rewrite <- (DecimalNat.Unsigned.of_to i), DecimalNat.Unsigned.to_of.
  apply DecimalFacts.unorm_nonnil.
Qed.

Lemma str_of_nat_inj i j : str_of_nat i = str_of_nat j → i = j.
Proof.
  unfold str_of_nat. intros H.
  apply DecimalNat.Unsigned.to_uint_inj.
  assert (Some (Nat.to_uint i) = Some (Nat.to_uint j)) as [= ?]; [|done].
  rewrite <- !NilZero.usu by apply to_uint_nonnil. by rewrite H.
Qed.

(** A run of digits in front of a text that starts otherwise is determined
    by the whole. *)
Lemma digit_prefix_unique a b r r' :
  string_forall is_digit a = true → string_forall is_digit b = true →
  stops is_digit r → stops is_digit r' →
  a +:+ r = b +:+ r' → a = b ∧ r = r'.
Proof.
  intros Ha Hb Hr Hr' He.
  pose proof (span_intro is_digit a r Ha Hr) as H1.
  rewrite He, (span_intro is_digit b r' Hb Hr') in H1. by simplify_eq.
Qed.

Lemma key_of_length o k : key_of o = Some k → String.length k = 21.
Proof.
  intros (m & Hm & <-)%key_of_Some.
  apply PATTERN_match_shape in Hm
    as (photo & size & mb & nl & _ & Hy & Hmo & Hd & Hh & Hmi & Hse & _).
  destruct m as [y mo d h mi se ext]; simpl in *.
  by explode_strings.
Qed.

Lemma ext_of_stops o k : key_of o = Some k → stops is_digit (ext_of o).
Proof.
  intros (m & Hm & _)%key_of_Some. rewrite (ext_of_match o m Hm).
  apply PATTERN_match_shape in Hm
    as (photo & size & mb & nl & _ & _ & _ & _ & _ & _ & _ & _ & _ & _ & _
        & Hext & _).
  destruct (extension m) as [|c e]; [done|]. simpl in *.
  injection Hext as Hc _. by rewrite (tolower_uncased c ".").
Qed.

(** The new name fixes the base key and the position in the group. *)
Lemma new_name_at_inj k k' sorted j j' o o' :
  key_of o = Some k → key_of o' = Some k' →
  j < length sorted → j' < length sorted →
  new_name_at k sorted j o = new_name_at k' sorted j' o' →
  k = k' ∧ j = j'.
Proof.
  intros Hk Hk' Hj Hj'. unfold new_name_at, numbered_name. simpl.
  destruct (Nat.eqb_spec (length sorted) 1) as [Hone|_].
  - intros [-> _]%append_inv_length;
      [split; [done | lia] | by rewrite (key_of_length o k), (key_of_length o' k')].
  - intros [-> He]%append_inv_length;
      [|by rewrite (key_of_length o k), (key_of_length o' k')].
    split; [done|]. rewrite !append_cons, !append_nil_l in He.
    injection He as He.
    apply digit_prefix_unique in He as [He _];
      eauto using str_of_nat_digits, ext_of_stops.
    apply str_of_nat_inj in He. lia.
Qed.

Lemma plan_pairs_new_inj matching o o' n :
  (o, n) ∈ mjoin (group_pairs <$> groups_of matching) →
  (o', n) ∈ mjoin (group_pairs <$> groups_of matching) →
  o = o'.
Proof.
  intros (k & j & Hk & Hj & ->)%elem_of_plan_pairs
         (k' & j' & Hk' & Hj' & He)%elem_of_plan_pairs.
  assert (String.length k = String.length k') as Hlen
    by by rewrite (key_of_length o k), (key_of_length o' k').
  assert (k = k') as <-.
  { unfold new_name_at, numbered_name in He.
    destruct (Nat.eqb _ 1), (Nat.eqb _ 1);
      by apply append_inv_length in He as [? _]. }
  apply new_name_at_inj in He as [_ <-];
    eauto using lookup_lt_Some. congruence.
Qed.

Lemma plan_of_sub matching p :
  p ∈ plan_of matching → p ∈ mjoin (group_pairs <$> groups_of matching).
Proof.
  intros [?|H]%elem_of_assign_all; [done | by apply elem_of_nil in H].
Qed.

Lemma plan_of_new_NoDup matching : NoDup (plan_of matching).*2.
Proof.
  apply NoDup_fmap_2_strong.
  - intros [o n] [o' n'] H1%plan_of_sub H2%plan_of_sub Heq. simpl in *.
    subst n'. by rewrite (plan_pairs_new_inj matching o o' n).
  - eapply NoDup_fmap_1. apply plan_of_keys_NoDup.
Qed.

Lemma plan_of_new_no_match matching o n :
  (o, n) ∈ plan_of matching → PATTERN_match n = None.
Proof.
  intros (m & sfx & _ & Hm & ->)%plan_of_elem.
  apply PATTERN_match_shape in Hm as (_ & _ & _ & _ & _ & ? & ? & _).
  by apply new_name_no_match.
Qed.

End NameFacts.

(** * Further properties of the execution *)

Section ApplyFacts.
Variable follows : gmap string entry -> string -> bool.
Variable denied : string -> string -> bool.

Lemma plan_of_independent matching : independent (plan_of matching).
Proof.
  split_and!; [apply plan_of_keys_NoDup | apply plan_of_new_NoDup |].
  intros o n Hin. split; [|by eapply plan_of_new_no_match].
  apply plan_of_elem in Hin as (m & _ & _ & Hm & _). by eexists.
Qed.

Lemma independent_cons o n plan :
  independent ((o, n) :: plan) →
  independent plan ∧ o ≠ n
  ∧ ∀ o' n', (o', n') ∈ plan → o' ≠ o ∧ o' ≠ n ∧ n' ≠ o ∧ n' ≠ n.
Proof.
  intros (Hk & Hv & Hm). simpl in *.
  apply NoDup_cons in Hk as [Hko Hk]. apply NoDup_cons in Hv as [Hvn Hv].
  destruct (Hm o n) as [Ho Hn]; [by left|].
  split_and!.
  - split_and!; [done..|]. intros o' n' ?. apply Hm. by right.
  - intros ->. rewrite Hn in Ho. by destruct Ho.
  - intros o' n' Hin. destruct (Hm o' n') as [Ho' Hn']; [by right|].
    split_and!; intros ->.
    + apply Hko. apply list_elem_of_fmap. by exists (o, n').
    + rewrite Hn in Ho'. by destruct Ho'.
    + rewrite Hn' in Ho. by destruct Ho.
    + apply Hvn. apply list_elem_of_fmap. by exists (o', n).
Qed.

Lemma independent_not_in o n plan x :
  independent ((o, n) :: plan) → x = o ∨ x = n →
  (x ∉ plan.*1) ∧ (x ∉ plan.*2).
Proof.
  intros (_ & _ & Hall)%independent_cons Hx.
  split; intros ([o' n'] & -> & Hin)%list_elem_of_fmap;
    destruct (Hall o' n' Hin) as (? & ? & ? & ?); simpl in *;
    destruct Hx; done.
Qed.

(** In a directory without symbolic links [os.path.exists] sees exactly the
    names that hold an entry. *)
Lemma path_exists_no_symlinks d x :
  no_symlinks d →
  path_exists follows d x = if d !! x is Some _ then true else false.
Proof.
  intros Hd. unfold path_exists. specialize (Hd x).
  destruct (d !! x) as [[| |data target]|]; try done.
  by destruct (Hd data target).
Qed.

(** A name [os.path.exists] does not see holds neither a regular file nor a
    directory. *)
Lemma path_exists_false d x :
  path_exists follows d x = false → is_file_or_dir (d !! x) = false.
Proof. unfold path_exists. by destruct (d !! x) as [[]|]. Qed.

(** Whether [os.rename] succeeds depends on the directory at its two names
    only. *)
Lemma os_rename_outcome_congr d d' src dst :
  d' !! src = d !! src → d' !! dst = d !! dst →
  match os_rename denied src dst d' with Ok _ => true | Raise _ => false end
  = match os_rename denied src dst d with Ok _ => true | Raise _ => false end.
Proof.
  intros H1 H2. unfold os_rename. rewrite H1, H2.
  destruct (denied src dst); [done|].
  destruct (d !! src) as [e|]; [|done].
  destruct (String.eqb src dst); [done|].
  destruct (d !! dst) as [t|]; [|done].
  case_bool_decide; [done|].
  by destruct e, t as [| ? []|].
Qed.

(** Without symbolic links, what is decided for a pair depends on the
    directory at its two names only. *)
Lemma attempt_congr d d' p :
  no_symlinks d → no_symlinks d' →
  d' !! p.1 = d !! p.1 → d' !! p.2 = d !! p.2 →
  attempt follows denied d' p = attempt follows denied d p.
Proof.
  intros Hd Hd' H1 H2. unfold attempt.
  rewrite !path_exists_no_symlinks, H2 by done.
  destruct (d !! p.2) eqn:E; [done|]. f_equal.
  apply os_rename_outcome_congr; congruence.
Qed.

(** A turn of the loop brings no symbolic link into the directory. *)
Lemma step_no_symlinks dry_run w o n w1 :
  step follows denied dry_run w o n w1 →
  no_symlinks (dir w) → no_symlinks (dir w1).
Proof.
  intros Hs Hd. destruct Hs as [| | |d' _ _ _ Hr|]; try done.
  apply os_rename_Ok in Hr as (e & He & [[-> _]|(Hne & _ & ->)]); [done|].
  simpl. intros x data target Hx.
  destruct (decide (x = n)) as [->|Hxn].
  - rewrite lookup_insert_eq in Hx. simplify_eq. by apply (Hd o data target).
  - rewrite lookup_insert_ne in Hx by done.
    apply lookup_delete_Some in Hx as [_ Hx]. by apply (Hd x data target).
Qed.

Lemma omap_cons {A B} (f : A → option B) (x : A) (l : list A) :
  omap f (x :: l) = option_list (f x) ++ omap f l.
Proof. simpl. by destruct (f x). Qed.

Lemma omap_ext_in {A B} (f g : A → option B) (l : list A) :
  (∀ x, x ∈ l → f x = g x) → omap f l = omap g l.
Proof.
  induction l as [|x l IH]; intros H; [done|].
  rewrite !omap_cons, H by by left.
  rewrite IH; [done|]. intros y ?. apply H. by right.
Qed.

Lemma fmap_ext_in {A B} (f g : A → B) (l : list A) :
  (∀ x, x ∈ l → f x = g x) → f <$> l = g <$> l.
Proof.
  induction l as [|x l IH]; intros H; [done|].
  rewrite !fmap_cons, H by by left.
  rewrite IH; [done|]. intros y ?. apply H. by right.
Qed.

(** One turn of the loop in apply mode, in a directory without symbolic
    links. *)
Lemma step_apply_spec w o n w1 :
  step follows denied false w o n w1 → o ≠ n → no_symlinks (dir w) →
  calls w1 = calls w ++ option_list (call_of follows denied (dir w) (o, n))
  ∧ stdout w1 = stdout w ++ apply_report follows denied (dir w) (o, n)
  ∧ (attempt follows denied (dir w) (o, n) = Some true →
       dir w1 !! n = dir w !! o ∧ is_Some (dir w !! o) ∧ dir w1 !! o = None)
  ∧ (attempt follows denied (dir w) (o, n) ≠ Some true → dir w1 = dir w)
  ∧ (∀ x, x ≠ o → x ≠ n → dir w1 !! x = dir w !! x).
Proof.
  intros Hs Hne Hd. unfold call_of, apply_report, attempt. simpl.
  destruct Hs as [|? Hex| |d' ? Hex _ Hr|? Hex _ Hr]; try done;
    simpl; rewrite Hex; simpl.
  - rewrite app_nil_r. by split_and!.
  - rewrite Hr. simpl.
    rewrite path_exists_no_symlinks in Hex by done.
    apply os_rename_Ok in Hr as (e & He & [[_ [?|Hn]]|(_ & _ & ->)]);
      [done | by rewrite Hn in Hex |].
    split_and!; try done.
    + intros _. rewrite lookup_insert_eq, lookup_insert_ne by done.
      by rewrite lookup_delete_eq, He.
    + intros x ? ?. by rewrite lookup_insert_ne, lookup_delete_ne.
  - rewrite Hr. simpl. by split_and!.
Qed.

(** An apply run over independent pairs, in a directory without symbolic
    links: every pair is treated as if it were alone in the directory the
    run started from. *)
Lemma steps_apply_spec w plan w' :
  steps follows denied false w plan w' → independent plan →
  no_symlinks (dir w) →
  calls w' = calls w ++ omap (call_of follows denied (dir w)) plan
  ∧ stdout w' = stdout w ++ mjoin (apply_report follows denied (dir w) <$> plan)
  ∧ (∀ o n, (o, n) ∈ plan → attempt follows denied (dir w) (o, n) = Some true →
       dir w' !! n = dir w !! o ∧ is_Some (dir w !! o) ∧ dir w' !! o = None)
  ∧ (∀ o n, (o, n) ∈ plan → attempt follows denied (dir w) (o, n) ≠ Some true →
       dir w' !! n = dir w !! n ∧ dir w' !! o = dir w !! o)
  ∧ (∀ x, x ∉ plan.*1 → x ∉ plan.*2 → dir w' !! x = dir w !! x).
Proof.
  induction 1 as [w|w o n w1 plan w' Hs Hss IH]; intros Hind Hd.
  { simpl. rewrite !app_nil_r.
    split_and!; try done; intros o n H; by apply elem_of_nil in H. }
  pose proof (independent_not_in _ _ _ o Hind (or_introl eq_refl)) as [Ho1 Ho2].
  pose proof (independent_not_in _ _ _ n Hind (or_intror eq_refl)) as [Hn1 Hn2].
  apply independent_cons in Hind as (Hind & Hne & Hall).
  pose proof (step_no_symlinks _ _ _ _ _ Hs Hd) as Hd1.
  destruct (step_apply_spec _ _ _ _ Hs Hne Hd) as (Hc & Hout & Hmv & Hst & Hfr).
  destruct (IH Hind Hd1) as (IHc & IHout & IHmv & IHst & IHfr).
  assert (∀ p, p ∈ plan →
            dir w1 !! p.1 = dir w !! p.1 ∧ dir w1 !! p.2 = dir w !! p.2)
    as Hsame.
  { intros [o' n'] Hin. destruct (Hall o' n' Hin) as (? & ? & ? & ?).
    split; by apply Hfr. }
  assert (∀ p, p ∈ plan →
            attempt follows denied (dir w1) p = attempt follows denied (dir w) p)
    as Hatt.
  { intros p Hin. destruct (Hsame p Hin). by apply attempt_congr. }
  split_and!.
  - rewrite IHc, Hc, <- app_assoc, omap_cons. do 2 f_equal.
    apply omap_ext_in. intros p Hin. unfold call_of. by rewrite Hatt.
  - rewrite IHout, Hout, <- app_assoc. f_equal. simpl. f_equal.
    f_equal. apply fmap_ext_in. intros p Hin. unfold apply_report.
    by rewrite Hatt.
  - intros o' n' [[= -> ->]|Hin]%elem_of_cons Ha.
    + destruct (Hmv Ha) as (? & ? & ?). rewrite !IHfr by done. done.
    + rewrite <- (Hatt _ Hin) in Ha.
      destruct (IHmv o' n' Hin Ha) as (H1 & H2 & H3).
      destruct (Hsame _ Hin) as [Hs1 _]. simpl in Hs1.
      rewrite H1, H3, <- Hs1. done.
  - intros o' n' [[= -> ->]|Hin]%elem_of_cons Ha.
    + rewrite !IHfr by done. by rewrite (Hst Ha).
    + rewrite <- (Hatt _ Hin) in Ha.
      destruct (IHst o' n' Hin Ha) as (H1 & H2).
      destruct (Hsame _ Hin) as [Hs1 Hs2]. simpl in *. by rewrite H1, H2.
  - intros x Hx1 Hx2. simpl in *.
    apply not_elem_of_cons in Hx1 as [? ?].
    apply not_elem_of_cons in Hx2 as [? ?].
    rewrite IHfr by done. by apply Hfr.
Qed.

(** One turn of the loop in apply mode, whatever the directory holds: the
    turn leaves the directory as it was, or it made one successful
    [os.rename] call with the effect described by [renamed_to]. *)
Lemma step_apply_frame w o n w1 :
  step follows denied false w o n w1 → o ≠ n →
  ∃ cs, calls w1 = calls w ++ cs
    ∧ (∀ c, c ∈ cs → c.1 = (o, n))
    ∧ (∀ x, x ≠ o → x ≠ n → dir w1 !! x = dir w !! x)
    ∧ ((((o, n, true) ∉ cs) ∧ dir w1 = dir w)
       ∨ ((o, n, true) ∈ cs ∧ renamed_to (dir w) (dir w1) o n)).
Proof.
  intros Hs Hne.
  destruct Hs as [|? Hex| |d' ? Hex _ Hr|? Hex _ Hr]; try done; simpl.
  - exists []. rewrite app_nil_r.
    split_and!; [done | by intros c ?%elem_of_nil | done |].
    left. split; [by intros ?%elem_of_nil | done].
  - exists [(o, n, true)].
    apply path_exists_false in Hex.
    apply os_rename_Ok in Hr as (e & He & [[-> Hl]|(_ & _ & ->)]).
    + split_and!; [done | by intros c ->%list_elem_of_singleton | done |].
      right. split; [by left|]. split; [done|].
      destruct Hl as [?|Hn]; [done|]. exists e. split_and!; try done.
      right. done.
    + split_and!; [done | by intros c ->%list_elem_of_singleton | |].
      { intros x ? ?. by rewrite lookup_insert_ne, lookup_delete_ne. }
      right. split; [by left|]. split; [done|]. exists e.
      split_and!; [done | by rewrite lookup_insert_eq |].
      left. by rewrite lookup_insert_ne, lookup_delete_eq.
  - exists [(o, n, false)].
    split_and!; [done | by intros c ->%list_elem_of_singleton | done |].
    left. split; [|done]. by intros [=]%list_elem_of_singleton.
Qed.

(** An apply run over independent pairs, whatever the directory holds: each
    pair either leaves its two names as they were, or was renamed with the
    effect described by [renamed_to]; no other name changes. *)
Lemma steps_apply_frame w plan w' :
  steps follows denied false w plan w' → independent plan →
  ∃ cs, calls w' = calls w ++ cs
    ∧ (∀ c, c ∈ cs → c.1 ∈ plan)
    ∧ (∀ x, x ∉ plan.*1 → x ∉ plan.*2 → dir w' !! x = dir w !! x)
    ∧ ∀ o n, (o, n) ∈ plan →
        (((o, n, true) ∉ cs)
         ∧ dir w' !! o = dir w !! o ∧ dir w' !! n = dir w !! n)
        ∨ ((o, n, true) ∈ cs ∧ renamed_to (dir w) (dir w') o n).
Proof.
  induction 1 as [w|w o n w1 plan w' Hs Hss IH]; intros Hind.
  { exists []. rewrite app_nil_r.
    split_and!; [done | by intros c ?%elem_of_nil | done
                | by intros o n ?%elem_of_nil]. }
  pose proof (independent_not_in _ _ _ o Hind (or_introl eq_refl)) as [Ho1 Ho2].
  pose proof (independent_not_in _ _ _ n Hind (or_intror eq_refl)) as [Hn1 Hn2].
  apply independent_cons in Hind as (Hind & Hne & Hall).
  destruct (step_apply_frame _ _ _ _ Hs Hne) as (cs1 & Hc1 & Hcs1 & Hfr & Hcase).
  destruct (IH Hind) as (cs2 & Hc2 & Hcs2 & IHfr & IHp).
  exists (cs1 ++ cs2). split_and!.
  - by rewrite Hc2, Hc1, app_assoc.
  - intros c [Hc|Hc]%elem_of_app.
    + rewrite (Hcs1 c Hc). by left.
    + right. by apply Hcs2.
  - intros x Hx1 Hx2. simpl in *.
    apply not_elem_of_cons in Hx1 as [? ?].
    apply not_elem_of_cons in Hx2 as [? ?].
    rewrite IHfr by done. by apply Hfr.
  - unfold renamed_to in *.
    intros o' n' [[= -> ->]|Hin]%elem_of_cons.
    + assert ((o, n, true) ∉ cs2) as Hnot.
      { intros Hc%Hcs2. apply Ho1. apply list_elem_of_fmap. by exists (o, n). }
      rewrite !IHfr by done.
      destruct Hcase as [[Hn ->]|[Hy Hmv]].
      * left. split_and!; [|done..]. by intros [?|?]%elem_of_app.
      * right. split; [apply elem_of_app; by left | done].
    + destruct (Hall o' n' Hin) as (? & ? & ? & ?).
      assert ((o', n', true) ∉ cs1) as Hnot.
      { intros Hc%Hcs1. simpl in Hc. congruence. }
      rewrite <- (Hfr o'), <- (Hfr n') by done.
      destruct (IHp o' n' Hin) as [(Hn & Hk1 & Hk2)|[Hy Hmv]].
      * left. split_and!; [|done..]. by intros [?|?]%elem_of_app.
      * right. split; [apply elem_of_app; by right | done].
Qed.

(** A preview run prints one line per pair, decided on the directory it
    started from. *)
Lemma steps_preview_spec w plan w' :
  steps follows denied true w plan w' → (∀ o n, (o, n) ∈ plan → o ≠ n) →
  stdout w' = stdout w ++ (decision follows (dir w) <$> plan).
Proof.
  induction 1 as [w|w o n w1 plan w' Hs Hss IH]; intros Hne.
  { by rewrite app_nil_r. }
  rewrite IH by (intros ???; apply Hne; by right).
  assert (o ≠ n) by (apply Hne; by left).
  destruct Hs as [|? Hex|? Hex| |]; try done; simpl;
    unfold decision at 2; simpl; rewrite Hex, <- app_assoc; done.
Qed.

Lemma apply_report_decision d p :
  filter is_decision (apply_report follows denied d p) = [decision follows d p].
Proof.
  unfold apply_report, decision, attempt.
  destruct (path_exists follows d p.2); [done|].
  by destruct (os_rename denied p.1 p.2 d).
Qed.

Lemma apply_reports_decisions d plan :
  filter is_decision (mjoin (apply_report follows denied d <$> plan))
  = decision follows d <$> plan.
Proof.
  induction plan as [|p plan IH]; [done|].
  change (mjoin (apply_report follows denied d <$> p :: plan))
    with (apply_report follows denied d p
          ++ mjoin (apply_report follows denied d <$> plan)).
  by rewrite filter_app, apply_report_decision, IH.
Qed.

Lemma decisions_are_decisions d (plan : list (string * string)) :
  filter is_decision (decision follows d <$> plan) = decision follows d <$> plan.
Proof.
  induction plan as [|p plan IH]; [done|].
  rewrite fmap_cons, filter_cons, IH. rewrite decide_True; [done|].
  unfold decision. by destruct (path_exists follows d p.2).
Qed.

(** A directory whose entries are all regular files or directories holds
    no symbolic link. *)
Lemma no_symlinks_forallb (d : gmap string entry) :
  forallb (λ p, is_file_or_dir (Some p.2)) (map_to_list d) = true →
  no_symlinks d.
Proof.
  intros H x data target Hx. apply elem_of_map_to_list in Hx.
  rewrite forallb_forall in H. apply list_elem_of_In, H in Hx. done.
Qed.

End ApplyFacts.

(** * Further theorems *)

Lemma rename_plan_is_plan_of files :
  rename_plan (matching_files files) = Ok (plan_of (matching_files files), []).
Proof. apply rename_plan_pure, matching_files_all_match. Qed.

(** X1.  The plan never gives two files the same new name, and never holds
    two pairs for one file: its sources are pairwise distinct and so are its
    targets, whatever the listing. *)
Theorem planned_names_distinct (files : list string) :
  ∃ plan, rename_plan (matching_files files) = Ok (plan, [])
    ∧ NoDup plan.*1 ∧ NoDup plan.*2.
Proof.
  exists (plan_of (matching_files files)).
  split_and!; [apply rename_plan_is_plan_of | apply plan_of_keys_NoDup
              | apply plan_of_new_NoDup].
Qed.

(** X2.  For a listing that names every entry once, the plan has exactly one
    pair per matching file and no other pair, so the count of the closing
    line is the count of the opening line. *)
Theorem plan_covers_matching_files (files : list string) :
  NoDup files →
  ∃ plan, rename_plan (matching_files files) = Ok (plan, [])
    ∧ plan.*1 ≡ₚ matching_files files
    ∧ length plan = length (matching_files files)
    ∧ ∀ follows denied dry_run w, matching_files files ≠ [] →
        ∃ w', rename_files_with_deduplication follows denied dry_run files w
              = Ok w'
          ∧ FoundFiles (length (matching_files files)) ∈ stdout w'
          ∧ Completed dry_run (length (matching_files files)) ∈ stdout w'.
Proof.
  intros Hnd. exists (plan_of (matching_files files)).
  assert ((plan_of (matching_files files)).*1 ≡ₚ matching_files files)
    as Hperm.
  { apply NoDup_Permutation;
      [apply plan_of_keys_NoDup | by apply NoDup_filter |].
    intros f. rewrite (plan_of_keys (matching_files files) f).
    rewrite elem_of_matching_files. tauto. }
  assert (length (plan_of (matching_files files))
          = length (matching_files files)) as Hlen.
  { rewrite <- (length_fmap fst). by apply Permutation_length. }
  split_and!; [apply rename_plan_is_plan_of | done | done |].
  intros follows denied dry_run w Hne.
  destruct (rename_files_spec follows denied dry_run files w)
    as [[? _]|[_ (w' & Hs & ->)]]; [done|].
  eexists; split_and!; [done | |]; simpl; rewrite ?Hlen.
  - apply elem_of_app; left. eapply steps_stdout_mono; [done|]. simpl.
    apply elem_of_app; left. apply elem_of_app; right. by left.
  - apply elem_of_app; right. by left.
Qed.

(** X3.  A planned new name does not match the pattern and is not the
    source of any pair: a file that was renamed is not selected again, and
    no rename feeds another. *)
Theorem planned_names_leave_pattern (files : list string) :
  ∃ plan, rename_plan (matching_files files) = Ok (plan, [])
    ∧ ∀ o n, (o, n) ∈ plan →
        PATTERN_match n = None
        ∧ (n ∉ plan.*1)
        ∧ (n ∉ matching_files (plan.*2)).
Proof.
  exists (plan_of (matching_files files)).
  split; [apply rename_plan_is_plan_of|]. intros o n Hin.
  pose proof (plan_of_new_no_match _ _ _ Hin) as Hn. split_and!; [done | |].
  - intros [Hm [m Hf]]%plan_of_keys. by rewrite Hn in Hf.
  - intros [[m Hf] _]%elem_of_matching_files. by rewrite Hn in Hf.
Qed.

(** X4.  In a directory without symbolic links, the console and the
    [os.rename] calls of an apply run are fixed, pair by pair in plan order,
    by the directory the run starts from: a conflict line when
    [os.path.exists] sees the target there, otherwise the renaming line and
    one call, followed by a failure line when the call raises.  With nothing
    to rename the run prints one line and calls nothing.  A link can start
    to dangle during the run, which changes what is decided for a later
    pair: [link_dangles_during_run]. *)
Theorem apply_run_report (follows : gmap string entry → string → bool)
    (denied : string → string → bool)
    (files : list string) (w : world) :
  no_symlinks (dir w) →
  ∃ plan w',
    rename_plan (matching_files files) = Ok (plan, [])
    ∧ rename_files_with_deduplication follows denied false files w = Ok w'
    ∧ calls w' = calls w ++ omap (call_of follows denied (dir w)) plan
    ∧ stdout w'
      = stdout w
        ++ match matching_files files with
           | [] => [NoFilesFound]
           | _ :: _ =>
               [FoundFiles (length (matching_files files)); Starting false]
               ++ mjoin (apply_report follows denied (dir w) <$> plan)
               ++ [Completed false (length plan)]
           end.
Proof.
  intros Hd. exists (plan_of (matching_files files)).
  destruct (rename_files_spec follows denied false files w)
    as [[Hnil ->]|[Hne (w' & Hs & ->)]].
  - eexists. split_and!; [apply rename_plan_is_plan_of | done | |].
    + rewrite Hnil. simpl. by rewrite app_nil_r.
    + by rewrite Hnil.
  - eexists. split_and!; [apply rename_plan_is_plan_of | done | |].
    + apply steps_apply_spec in Hs as (Hc & _);
        [|apply plan_of_independent|done].
      simpl in *. done.
    + apply steps_apply_spec in Hs as (_ & Hout & _);
        [|apply plan_of_independent|done].
      simpl in *. rewrite Hout.
      destruct (matching_files files); [done|].
      by rewrite <- !app_assoc.
Qed.

(** X5.  In a directory without symbolic links a preview run predicts the
    apply run: from the same directory and listing, both take the same
    decision for every pair, conflict or rename, in the same order.  With
    a link to a matching file they can differ:
    [link_dangles_during_run]. *)
Theorem preview_predicts_apply (follows : gmap string entry → string → bool)
    (denied : string → string → bool)
    (files : list string) (w : world) :
  no_symlinks (dir w) →
  ∃ wp wa,
    rename_files_with_deduplication follows denied true files w = Ok wp
    ∧ rename_files_with_deduplication follows denied false files w = Ok wa
    ∧ filter is_decision (stdout wp) = filter is_decision (stdout wa).
Proof.
  intros Hd.
  destruct (rename_files_spec follows denied true files w)
    as [[Hnil ->]|[Hne (wp & Hp & ->)]];
  destruct (rename_files_spec follows denied false files w)
    as [[Hnil' ->]|[Hne' (wa & Ha & ->)]]; try done.
  { by eexists _, _. }
  eexists _, _. split_and!; [done..|].
  apply steps_preview_spec in Hp.
  2:{ intros o n (m & sfx & _ & Hm & ->)%plan_of_elem.
      apply not_eq_sym. by apply new_name_differs. }
  apply steps_apply_spec in Ha as (_ & Hout & _);
    [|apply plan_of_independent|done].
  simpl in *. rewrite Hp, Hout, !filter_app.
  rewrite apply_reports_decisions, decisions_are_decisions. done.
Qed.

Lemma elem_of_call_of follows denied d (plan : list (string * string)) o n b :
  (o, n, b) ∈ omap (call_of follows denied d) plan
  ↔ (o, n) ∈ plan ∧ attempt follows denied d (o, n) = Some b.
Proof.
  rewrite list_elem_of_omap. unfold call_of. split.
  - intros ([o' n'] & Hin & Hc). simpl in Hc.
    destruct (attempt follows denied d (o', n')) as [b'|] eqn:Ha;
      simplify_eq/=. done.
  - intros [Hin Ha]. exists (o, n). rewrite Ha. done.
Qed.

(** X6.  An apply run changes the directory through its successful renames
    and nothing else, whatever the directory holds.  A successful call was
    made for a target that held neither a regular file nor a directory; it
    leaves the entry of the source under the target name and nothing under
    the source name, unless the two names were hard links to one file, which
    both still hold.  A name that is neither source nor target of a
    successful call holds what it held. *)
Theorem apply_run_effect (follows : gmap string entry → string → bool)
    (denied : string → string → bool)
    (files : list string) (w : world) :
  ∃ w', rename_files_with_deduplication follows denied false files w = Ok w'
    ∧ (∀ o n, (o, n, true) ∈ calls w' →
         (o, n, true) ∈ calls w ∨ renamed_to (dir w) (dir w') o n)
    ∧ (∀ x, (∀ n, (x, n, true) ∉ calls w') → (∀ o, (o, x, true) ∉ calls w') →
         dir w' !! x = dir w !! x).
Proof.
  destruct (rename_files_spec follows denied false files w)
    as [[Hnil ->]|[Hne (w' & Hs & ->)]].
  { eexists; split_and!; [done | by left | done]. }
  apply steps_apply_frame in Hs as (cs & Hc & Hcs & Hfr & Hp);
    [|apply plan_of_independent].
  simpl in *. eexists; split_and!; [done | |]; simpl; rewrite Hc.
  - intros o n [?|Hin]%elem_of_app; [by left|]. right.
    destruct (Hp o n (Hcs _ Hin)) as [[Hn _]|[_ Hmv]]; done.
  - intros x Hsrc Htgt.
    destruct (decide (x ∈ (plan_of (matching_files files)).*1)) as [Hx|Hx1].
    { apply list_elem_of_fmap in Hx as ([o n] & -> & Hin). simpl in *.
      destruct (Hp o n Hin) as [(_ & ? & _)|[Hy _]]; [done|].
      destruct (Hsrc n). apply elem_of_app. by right. }
    destruct (decide (x ∈ (plan_of (matching_files files)).*2)) as [Hx|Hx2].
    { apply list_elem_of_fmap in Hx as ([o n] & -> & Hin). simpl in *.
      destruct (Hp o n Hin) as [(_ & _ & ?)|[Hy _]]; [done|].
      destruct (Htgt o). apply elem_of_app. by right. }
    by apply Hfr.
Qed.

(** X7.  No regular file and no directory is lost, in either mode and
    whatever else the directory holds: after the run it is still under its
    name, or it was renamed and is under the name it was renamed to. *)
Theorem files_and_directories_are_kept
    (follows : gmap string entry → string → bool)
    (denied : string → string → bool)
    (dry_run : bool) (files : list string) (w : world) :
  ∃ w', rename_files_with_deduplication follows denied dry_run files w = Ok w'
    ∧ ∀ name e, dir w !! name = Some e → is_file_or_dir (Some e) = true →
        dir w' !! name = Some e
        ∨ ∃ n, (name, n, true) ∈ calls w' ∧ dir w' !! n = Some e.
Proof.
  destruct (rename_files_spec follows denied dry_run files w)
    as [[Hnil ->]|[Hne (w' & Hs & ->)]].
  { eexists; split; [done|]. intros name e ? _. by left. }
  eexists; split; [done|]. simpl. intros name e He Hvis.
  destruct dry_run.
  { apply steps_preview in Hs as [-> _]. by left. }
  apply steps_apply_frame in Hs as (cs & Hc & Hcs & Hfr & Hp);
    [|apply plan_of_independent].
  simpl in *.
  destruct (decide (name ∈ (plan_of (matching_files files)).*1)) as [Hx|Hx1].
  { apply list_elem_of_fmap in Hx as ([o n] & -> & Hin). simpl in *.
    destruct (Hp o n Hin) as [(_ & Ho & _)|[Hy (_ & e' & He' & Hn & _)]].
    - left. by rewrite Ho.
    - right. exists n. split; [rewrite Hc; apply elem_of_app; by right|].
      congruence. }
  destruct (decide (name ∈ (plan_of (matching_files files)).*2)) as [Hx|Hx2].
  { apply list_elem_of_fmap in Hx as ([o n] & -> & Hin). simpl in *.
    destruct (Hp o n Hin) as [(_ & _ & Hn)|[_ (Hno & _)]].
    - left. by rewrite Hn.
    - rewrite He in Hno. simpl in Hno. congruence. }
  left. by rewrite Hfr.
Qed.

Lemma plan_of_get_perm m1 m2 f :
  NoDup m1 → NoDup m2 → m1 ≡ₚ m2 →
  Dict.get f (plan_of m1) = Dict.get f (plan_of m2).
Proof.
  intros Hm1 Hm2 Hperm.
  destruct (key_of f) as [k|] eqn:Hk; [destruct (decide (f ∈ m1)) as [Hin|Hnin]|].
  - assert (list_sort (same_key k m1) = list_sort (same_key k m2)) as Hsort.
    { apply list_sort_unique; [apply list_sort_sorted|].
      rewrite list_sort_perm. unfold same_key. by rewrite Hperm. }
    assert (f ∈ list_sort (same_key k m1)) as [j Hj]%list_elem_of_lookup.
    { rewrite elem_of_list_sort. by apply elem_of_same_key. }
    rewrite (plan_of_get _ k j f Hm1 Hk Hj).
    rewrite Hsort in Hj. rewrite (plan_of_get _ k j f Hm2 Hk Hj).
    by rewrite Hsort.
  - assert (∀ m, f ∉ m → Dict.get f (plan_of m) = None) as Hnone.
    { intros m Hn. apply get_None_keys. rewrite plan_of_keys. tauto. }
    rewrite !Hnone; [done | by rewrite <- Hperm | done].
  - assert (∀ m, Dict.get f (plan_of m) = None) as Hnone.
    { intros m. apply get_None_keys. rewrite plan_of_keys.
      intros [_ [g Hg]]. unfold key_of in Hk. by rewrite Hg in Hk. }
    by rewrite !Hnone.
Qed.

Lemma plan_of_perm m1 m2 :
  NoDup m1 → NoDup m2 → m1 ≡ₚ m2 → plan_of m1 ≡ₚ plan_of m2.
Proof.
  intros Hm1 Hm2 Hperm.
  apply NoDup_Permutation;
    [eapply NoDup_fmap_1, plan_of_keys_NoDup
    | eapply NoDup_fmap_1, plan_of_keys_NoDup |].
  intros [o n]. rewrite <- !plan_of_get_Some.
  by rewrite (plan_of_get_perm m1 m2 o).
Qed.

(** Independent plans with the same pairs, run from the same directory
    without symbolic links in whatever order, end in the same directory. *)
Lemma steps_apply_perm follows denied w1 w2 plan1 plan2 w1' w2' :
  dir w1 = dir w2 → no_symlinks (dir w1) → plan1 ≡ₚ plan2 →
  independent plan1 → independent plan2 →
  steps follows denied false w1 plan1 w1' →
  steps follows denied false w2 plan2 w2' →
  dir w1' = dir w2'.
Proof.
  intros Hd Hno Hperm Hi1 Hi2 Hs1 Hs2.
  apply steps_apply_spec in Hs1 as (_ & _ & Hmv1 & Hst1 & Hfr1); [|done..].
  apply steps_apply_spec in Hs2 as (_ & _ & Hmv2 & Hst2 & Hfr2);
    [|done|by rewrite <- Hd].
  rewrite <- Hd in *. apply map_eq. intros x.
  assert (∀ o n, (o, n) ∈ plan1 → (o, n) ∈ plan2) as Hin12
    by (intros o n; by rewrite Hperm).
  destruct (decide (x ∈ plan1.*1)) as [Hx|Hx1].
  { apply list_elem_of_fmap in Hx as ([o n] & -> & Hin). simpl.
    destruct (decide (attempt follows denied (dir w1) (o, n) = Some true))
      as [Ha|Ha].
    - destruct (Hmv1 o n Hin Ha) as (_ & _ & ->).
      by destruct (Hmv2 o n (Hin12 _ _ Hin) Ha) as (_ & _ & ->).
    - destruct (Hst1 o n Hin Ha) as (_ & ->).
      by destruct (Hst2 o n (Hin12 _ _ Hin) Ha) as (_ & ->). }
  destruct (decide (x ∈ plan1.*2)) as [Hx|Hx2].
  { apply list_elem_of_fmap in Hx as ([o n] & -> & Hin). simpl.
    destruct (decide (attempt follows denied (dir w1) (o, n) = Some true))
      as [Ha|Ha].
    - destruct (Hmv1 o n Hin Ha) as (-> & _ & _).
      by destruct (Hmv2 o n (Hin12 _ _ Hin) Ha) as (-> & _ & _).
    - destruct (Hst1 o n Hin Ha) as (-> & _).
      by destruct (Hst2 o n (Hin12 _ _ Hin) Ha) as (-> & _). }
  rewrite Hfr1, Hfr2; [done | | | done | done]; by rewrite <- Hperm.
Qed.

(** X8.  In a directory without symbolic links the outcome of an apply run
    does not depend on the order of the listing: two listings that name
    their entries once and hold the same matching names lead, from the same
    directory, to the same directory and to the same [os.rename] calls with
    the same outcomes.  With a link to a matching file the order matters:
    [link_dangles_during_run]. *)
Theorem apply_result_independent_of_listing_order
    (follows : gmap string entry → string → bool)
    (denied : string → string → bool) (files1 files2 : list string)
    (w : world) :
  no_symlinks (dir w) →
  NoDup files1 → NoDup files2 →
  (∀ f, f ∈ matching_files files1 ↔ f ∈ matching_files files2) →
  ∃ w1 w2,
    rename_files_with_deduplication follows denied false files1 w = Ok w1
    ∧ rename_files_with_deduplication follows denied false files2 w = Ok w2
    ∧ dir w1 = dir w2
    ∧ calls w1 ≡ₚ calls w2.
Proof.
  intros Hd Hnd1 Hnd2 Hsame.
  assert (matching_files files1 ≡ₚ matching_files files2) as Hperm
    by (apply NoDup_Permutation; [by apply NoDup_filter..|done]).
  destruct (rename_files_spec follows denied false files1 w)
    as [[Hnil1 ->]|[Hne1 (w1 & Hs1 & ->)]];
  destruct (rename_files_spec follows denied false files2 w)
    as [[Hnil2 ->]|[Hne2 (w2 & Hs2 & ->)]].
  - eexists _, _. split_and!; [done | done | done | reflexivity].
  - rewrite Hnil1 in Hperm. symmetry in Hperm.
    by apply Permutation_nil_r in Hperm.
  - rewrite Hnil2 in Hperm. by apply Permutation_nil_r in Hperm.
  - assert (plan_of (matching_files files1) ≡ₚ plan_of (matching_files files2))
      as Hplans by (apply plan_of_perm; [by apply NoDup_filter..|done]).
    eexists _, _. split_and!; [done | done | |]; simpl.
    + refine (steps_apply_perm follows denied _ _ _ _ _ _ _ _ Hplans _ _ Hs1 Hs2);
        [done | done | apply plan_of_independent..].
    + apply steps_apply_spec in Hs1 as (-> & _);
        [|apply plan_of_independent|done].
      apply steps_apply_spec in Hs2 as (-> & _);
        [|apply plan_of_independent|done].
      simpl. by rewrite Hplans.
Qed.

(** * The pattern under a change of case *)

Section CaseFacts.

Lemma is_digit_tolower c : is_digit (tolower c) = is_digit c.
Proof. destruct c as [[] [] [] [] [] [] [] []]; reflexivity. Qed.

Lemma is_digit_or_dot_tolower c :
  is_digit_or_dot (tolower c) = is_digit_or_dot c.
Proof. destruct c as [[] [] [] [] [] [] [] []]; reflexivity. Qed.

Lemma newline_tolower c : Ascii.eqb (tolower c) "010" = Ascii.eqb c "010".
Proof. destruct c as [[] [] [] [] [] [] [] []]; reflexivity. Qed.

Lemma digits_lower n s : digits n (lower s) = lower2 <$> digits n s.
Proof.
  revert s; induction n as [|n IH]; intros [|c s]; simpl; try done.
  rewrite is_digit_tolower. destruct (is_digit c); [|done].
  rewrite IH. by destruct (digits n s) as [[? ?]|].
Qed.

Lemma literal_lower lit s : literal lit (lower s) = lower2 <$> literal lit s.
Proof.
  revert s; induction lit as [|p lit IH]; intros [|c s]; simpl; try done.
  rewrite tolower_idemp. destruct (Ascii.eqb _ _); [|done].
  rewrite IH. by destruct (literal lit s) as [[? ?]|].
Qed.

Lemma span_lower p s :
  (∀ c, p (tolower c) = p c) → span p (lower s) = lower2 (span p s).
Proof.
  intros Hp. induction s as [|c s IH]; simpl; [done|].
  rewrite Hp. destruct (p c); [|done].
  rewrite IH. by destruct (span p s).
Qed.

Lemma size_field_lower s : size_field (lower s) = lower2 <$> size_field s.
Proof.
  unfold size_field. rewrite span_lower by apply is_digit_or_dot_tolower.
  by destruct (span is_digit_or_dot s) as [[|? ?] ?].
Qed.

Lemma at_end_lower s : at_end (lower s) = at_end s.
Proof.
  destruct s as [|c [|c' s]]; simpl; [done | apply newline_tolower | done].
Qed.

Lemma digits_lower_id n s d r : digits n s = Some (d, r) → lower d = d.
Proof.
  intros [_ [_ Hd]]%digits_inv. induction d as [|c d IH]; [done|].
  simpl in *. apply andb_prop in Hd as [Hc Hd]. rewrite IH by done.
  f_equal. clear -Hc. destruct c as [[] [] [] [] [] [] [] []]; done.
Qed.

Ltac scan_lower :=
  first [ rewrite digits_lower | rewrite literal_lower | rewrite size_field_lower ];
  match goal with
  | |- context [lower2 <$> ?x] =>
      let E := fresh "E" in destruct x as [[? ?]|] eqn:E; [|done]
  end;
  cbn [fmap option_fmap option_map mbind option_bind lower2 fst snd].

Lemma PATTERN_match_lower s :
  PATTERN_match (lower s) = lower_groups <$> PATTERN_match s.
Proof.
  unfold PATTERN_match.
  do 15 scan_lower.
  rewrite at_end_lower. by destruct (at_end _).
Qed.

Lemma lower_groups_key s g :
  PATTERN_match s = Some g → new_base_name (lower_groups g) = new_base_name g.
Proof.
  unfold PATTERN_match. intros H.
  repeat (apply bind_Some in H as ([? ?] & ? & H); cbv beta iota in H).
  destruct (at_end _); [|done]. injection H as <-.
  unfold lower_groups, new_base_name. simpl.
  repeat match goal with
  | E : digits _ _ = Some (?d, _) |- _ =>
      rewrite (digits_lower_id _ _ _ _ E); clear E
  end.
  done.
Qed.

End CaseFacts.

(** X9.  Selection ignores the case of the whole name: a name is selected
    exactly when its lower-cased form is, the captured groups of the
    lower-cased form are the lower-cased groups, and both names have the
    same base key. *)
Theorem selection_ignores_case (s : string) :
  PATTERN_match (lower s) = lower_groups <$> PATTERN_match s
  ∧ (is_Some (PATTERN_match (lower s)) ↔ is_Some (PATTERN_match s))
  ∧ key_of (lower s) = key_of s.
Proof.
  pose proof (PATTERN_match_lower s) as H. split_and!; [done | |].
  - rewrite H. by rewrite fmap_is_Some.
  - unfold key_of. rewrite H.
    destruct (PATTERN_match s) as [g|] eqn:Hg; [|done]. simpl.
    by rewrite (lower_groups_key s g).
Qed.

(** ** The further theorems at concrete directories *)

Lemma plan_covers_matching_files_witness :
  NoDup scenario_files
  ∧ ∃ plan, rename_plan (matching_files scenario_files) = Ok (plan, [])
      ∧ length plan = 3.
Proof.
  assert (NoDup scenario_files) as Hnd by compute_done.
  split; [exact Hnd|].
  destruct (plan_covers_matching_files scenario_files Hnd)
    as (plan & Hplan & _ & Hlen & _).
  exists plan. split; [exact Hplan | exact Hlen].
Defined.

Lemma scenario_dir_no_symlinks : no_symlinks scenario_dir.
Proof. apply no_symlinks_forallb. reflexivity. Qed.

Lemma apply_run_report_witness :
  no_symlinks scenario_dir
  ∧ ∃ w', rename_files_with_deduplication follow_here deny_burst_a false
            scenario_files (World scenario_dir [] []) = Ok w'
      ∧ calls w'
        = omap (call_of follow_here deny_burst_a scenario_dir) scenario_plan.
Proof.
  split; [exact scenario_dir_no_symlinks|].
  destruct (apply_run_report follow_here deny_burst_a scenario_files
              (World scenario_dir [] []) scenario_dir_no_symlinks)
    as (plan & w' & Hplan & Hrun & Hcalls & _).
  exists w'. split; [exact Hrun|].
  assert (rename_plan (matching_files scenario_files)
          = Ok (scenario_plan, [])) as Hp by (vm_compute; reflexivity).
  rewrite Hp in Hplan. injection Hplan as <-. exact Hcalls.
Defined.

Lemma preview_predicts_apply_witness :
  no_symlinks scenario_dir
  ∧ ∃ wp wa,
      rename_files_with_deduplication follow_here deny_burst_a true
        scenario_files (World scenario_dir [] []) = Ok wp
      ∧ rename_files_with_deduplication follow_here deny_burst_a false
          scenario_files (World scenario_dir [] []) = Ok wa
      ∧ filter is_decision (stdout wp) = filter is_decision (stdout wa).
Proof.
  split; [exact scenario_dir_no_symlinks|].
  exact (preview_predicts_apply follow_here deny_burst_a scenario_files
           (World scenario_dir [] []) scenario_dir_no_symlinks).
Defined.

Lemma apply_result_independent_of_listing_order_witness :
  no_symlinks scenario_dir
  ∧ NoDup scenario_files
  ∧ NoDup [burst_a; single; "vacation.jpg"; burst_b]
  ∧ ∃ w1 w2,
      rename_files_with_deduplication follow_here deny_burst_a false
        scenario_files (World scenario_dir [] []) = Ok w1
      ∧ rename_files_with_deduplication follow_here deny_burst_a false
          [burst_a; single; "vacation.jpg"; burst_b]
          (World scenario_dir [] []) = Ok w2
      ∧ dir w1 = dir w2
      ∧ calls w1 ≡ₚ calls w2.
Proof.
  assert (NoDup scenario_files) as H1 by compute_done.
  assert (NoDup [burst_a; single; "vacation.jpg"; burst_b]) as H2
    by compute_done.
  split_and!; [exact scenario_dir_no_symlinks | exact H1 | exact H2 |].
  apply (apply_result_independent_of_listing_order follow_here deny_burst_a
           _ _ (World scenario_dir [] []) scenario_dir_no_symlinks H1 H2).
  intros f.
  assert (matching_files scenario_files = [burst_b; single; burst_a]) as ->
    by by vm_compute.
  assert (matching_files [burst_a; single; "vacation.jpg"; burst_b]
          = [burst_a; single; burst_b]) as -> by by vm_compute.
  rewrite !elem_of_cons, !elem_of_nil. tauto.
Defined.
